(** * Middle Earth AI program: a shallow embedding of the Anchor instructions

    The on-chain program (programs/middle_earth_ai_program) is modelled as
    follows.
    - Account addresses ([Pubkey]) are integers.
    - The accounts an instruction may touch form a [World]: agent accounts and
      stake-info accounts (keyed by their PDA seeds), SPL token accounts and
      the single [Game] account.
    - An instruction handler is a state-and-error computation [M] over the
      world.  A failing handler stops at its first error; the Solana runtime
      then discards every account write and every CPI transfer made by the
      transaction: [exec] commits the final world only on success.
    - Unsigned and signed machine integers are [Z] with their range written
      out; [checked_*] return [None] exactly where Rust's [checked_*] do, and
      a plain [+] on [i64] panics on overflow (overflow-checks, as in Anchor's
      release profile). *)

From Stdlib Require Import ZArith Lia Bool.
From Stdlib Require String.
From Stdlib Require Import Floats.SpecFloat.
From stdpp Require Import base gmap list.

Open Scope Z_scope.

(* ------------------------------------------------------------------ *)
(** ** Machine integers *)

Abbreviation Pubkey := Z.

Definition U64_MAX : Z := 2 ^ 64 - 1.
Definition U128_MAX : Z := 2 ^ 128 - 1.
Definition I64_MIN : Z := - 2 ^ 63.
Definition I64_MAX : Z := 2 ^ 63 - 1.

Definition is_u64 (v : Z) : Prop := 0 <= v <= U64_MAX.
Definition is_u128 (v : Z) : Prop := 0 <= v <= U128_MAX.
Definition is_i64 (v : Z) : Prop := I64_MIN <= v <= I64_MAX.

Definition checked_add_u64 (a b : Z) : option Z :=
  if a + b <=? U64_MAX then Some (a + b) else None.
Definition checked_sub_u64 (a b : Z) : option Z :=
  if b <=? a then Some (a - b) else None.
Definition checked_mul_u64 (a b : Z) : option Z :=
  if a * b <=? U64_MAX then Some (a * b) else None.
Definition checked_add_u128 (a b : Z) : option Z :=
  if a + b <=? U128_MAX then Some (a + b) else None.
Definition checked_sub_u128 (a b : Z) : option Z :=
  if b <=? a then Some (a - b) else None.
Definition checked_mul_u128 (a b : Z) : option Z :=
  if a * b <=? U128_MAX then Some (a * b) else None.
(** [checked_div] on unsigned integers: [None] only for a zero divisor. *)
Definition checked_div (a b : Z) : option Z :=
  if b =? 0 then None else Some (a / b).
(** [v as u64] for an unsigned [v]: keeps the low 64 bits. *)
Definition as_u64 (v : Z) : Z := v mod 2 ^ 64.

(* ------------------------------------------------------------------ *)
(** ** Errors (error.rs, plus the runtime's and the token program's) *)

Inductive GameError :=
  | AgentNotAlive | MovementCooldown | OutOfBounds | BattleInProgress
  | BattleCooldown | ReentrancyGuard | AllianceCooldown | NotEnoughTokens
  | MaxStakeExceeded | ClaimCooldown | InvalidTerrain | TokenTransferError
  | InsufficientFunds | Unauthorized | IgnoreCooldown | InvalidAlliancePartner
  | AllianceAlreadyExists | NoAllianceToBreak | MaxAgentLimitReached
  | AgentAlreadyExists | NameTooLong | CooldownNotOver | GameNotActive
  | InvalidAmount | InvalidBump | NoRewardsToClaim | InsufficientRewards
  | CooldownAlreadyActive | BattleNotStarted | BattleAlreadyStarted
  | BattleNotReadyToResolve
  (** raised by [break_alliance], not declared in error.rs *)
  | AllianceNotFound.

Inductive Error :=
  | GameErr (e : GameError)
  (** the SPL token program's [TokenError]s raised by [Transfer] *)
  | TokenInsufficientFunds | TokenOwnerMismatch | TokenOverflow
  (** Anchor account validation *)
  | AccountNotInitialized | AccountAlreadyInUse | AccountDidNotDeserialize
  | ConstraintHasOne
  (** a Rust panic (arithmetic overflow) *)
  | ArithmeticPanic.

Inductive result (A : Type) := Ok (a : A) | Err (e : Error).
Arguments Ok {A} a.
Arguments Err {A} e.

(* ------------------------------------------------------------------ *)
(** ** Accounts *)

Module Agent.
(** The fields of [state::Agent] that the instructions read or write
    (the handlers use [battle_start_time], [last_attack], [last_alliance],
    [next_move_time] next to the fields declared in state/agent.rs). *)
Record t := mk {
  authority : Pubkey;
  x : Z;
  y : Z;
  is_alive : bool;
  last_move : Z;
  last_battle : Z;
  current_battle_start : option Z;
  battle_start_time : option Z;
  last_attack : Z;
  last_alliance : Z;
  next_move_time : Z;
  alliance_with : option Pubkey;
  alliance_timestamp : Z;
  staked_balance : Z;
  total_shares : Z;
}.

Definition set_is_alive (b : bool) (a : t) : t :=
  mk a.(authority) a.(x) a.(y) b a.(last_move) a.(last_battle)
     a.(current_battle_start) a.(battle_start_time) a.(last_attack)
     a.(last_alliance) a.(next_move_time) a.(alliance_with)
     a.(alliance_timestamp) a.(staked_balance) a.(total_shares).
Definition set_move (nx ny now : Z) (a : t) : t :=
  mk a.(authority) nx ny a.(is_alive) now a.(last_battle)
     a.(current_battle_start) a.(battle_start_time) a.(last_attack)
     a.(last_alliance) a.(next_move_time) a.(alliance_with)
     a.(alliance_timestamp) a.(staked_balance) a.(total_shares).
Definition set_next_move_time (v : Z) (a : t) : t :=
  mk a.(authority) a.(x) a.(y) a.(is_alive) a.(last_move) a.(last_battle)
     a.(current_battle_start) a.(battle_start_time) a.(last_attack)
     a.(last_alliance) v a.(alliance_with)
     a.(alliance_timestamp) a.(staked_balance) a.(total_shares).
Definition set_battle_start_time (v : option Z) (a : t) : t :=
  mk a.(authority) a.(x) a.(y) a.(is_alive) a.(last_move) a.(last_battle)
     a.(current_battle_start) v a.(last_attack)
     a.(last_alliance) a.(next_move_time) a.(alliance_with)
     a.(alliance_timestamp) a.(staked_balance) a.(total_shares).
Definition set_last_attack (v : Z) (a : t) : t :=
  mk a.(authority) a.(x) a.(y) a.(is_alive) a.(last_move) a.(last_battle)
     a.(current_battle_start) a.(battle_start_time) v
     a.(last_alliance) a.(next_move_time) a.(alliance_with)
     a.(alliance_timestamp) a.(staked_balance) a.(total_shares).
Definition set_alliance (w : option Pubkey) (ts : Z) (a : t) : t :=
  mk a.(authority) a.(x) a.(y) a.(is_alive) a.(last_move) a.(last_battle)
     a.(current_battle_start) a.(battle_start_time) a.(last_attack)
     a.(last_alliance) a.(next_move_time) w
     ts a.(staked_balance) a.(total_shares).
Definition set_staked_balance (v : Z) (a : t) : t :=
  mk a.(authority) a.(x) a.(y) a.(is_alive) a.(last_move) a.(last_battle)
     a.(current_battle_start) a.(battle_start_time) a.(last_attack)
     a.(last_alliance) a.(next_move_time) a.(alliance_with)
     a.(alliance_timestamp) v a.(total_shares).
Definition set_total_shares (v : Z) (a : t) : t :=
  mk a.(authority) a.(x) a.(y) a.(is_alive) a.(last_move) a.(last_battle)
     a.(current_battle_start) a.(battle_start_time) a.(last_attack)
     a.(last_alliance) a.(next_move_time) a.(alliance_with)
     a.(alliance_timestamp) a.(staked_balance) v.
End Agent.

Module StakeInfo.
(** state/stake_info.rs *)
Record t := mk {
  agent : Pubkey;
  staker : Pubkey;
  amount : Z;
  shares : Z;
  last_reward_timestamp : Z;
  cooldown_ends_at : Z;
  is_initialized : bool;
}.
(** a freshly created ([init]) account is zeroed *)
Definition default : t := mk 0 0 0 0 0 0 false.

Definition set_header (ag st : Pubkey) (s : t) : t :=
  mk ag st s.(amount) s.(shares) 0 s.(cooldown_ends_at) true.
Definition set_amount (v : Z) (s : t) : t :=
  mk s.(agent) s.(staker) v s.(shares) s.(last_reward_timestamp)
     s.(cooldown_ends_at) s.(is_initialized).
Definition set_shares (v : Z) (s : t) : t :=
  mk s.(agent) s.(staker) s.(amount) v s.(last_reward_timestamp)
     s.(cooldown_ends_at) s.(is_initialized).
Definition set_cooldown_ends_at (v : Z) (s : t) : t :=
  mk s.(agent) s.(staker) s.(amount) s.(shares) s.(last_reward_timestamp)
     v s.(is_initialized).
Definition set_last_reward_timestamp (v : Z) (s : t) : t :=
  mk s.(agent) s.(staker) s.(amount) s.(shares) v
     s.(cooldown_ends_at) s.(is_initialized).
End StakeInfo.

Module TokenAccount.
(** the fields of an SPL token account used here *)
Record t := mk { owner : Pubkey; amount : Z }.
Definition set_amount (v : Z) (a : t) : t := mk a.(owner) v.
End TokenAccount.

Module Alliance.
(** state/game.rs *)
Record t := mk { agent1 : Pubkey; agent2 : Pubkey; formed_at : Z; is_active : bool }.
End Alliance.

Module Game.
Record StakerStake := mkStakerStake { staker : Pubkey; total_stake : Z }.
(** the fields of [state::Game] used by the instructions *)
Record t := mk {
  authority : Pubkey;
  is_active : bool;
  alliances : list Alliance.t;
  total_stake_accounts : list StakerStake;
}.
Definition set_alliances (l : list Alliance.t) (g : t) : t :=
  mk g.(authority) g.(is_active) l g.(total_stake_accounts).
Definition set_total_stake_accounts (l : list StakerStake) (g : t) : t :=
  mk g.(authority) g.(is_active) g.(alliances) l.
End Game.

Record World := mkWorld {
  agents : gmap Pubkey Agent.t;
  (** StakeInfo PDAs, seeds [b"stake", agent, staker] *)
  stakes : gmap (Pubkey * Pubkey) StakeInfo.t;
  tokens : gmap Pubkey TokenAccount.t;
  game : Game.t;
}.

Definition set_agents m w := mkWorld m w.(stakes) w.(tokens) w.(game).
Definition set_stakes m w := mkWorld w.(agents) m w.(tokens) w.(game).
Definition set_tokens m w := mkWorld w.(agents) w.(stakes) m w.(game).
Definition set_game g w := mkWorld w.(agents) w.(stakes) w.(tokens) g.

(* ------------------------------------------------------------------ *)
(** ** The instruction monad *)

Definition M (A : Type) := World -> result A * World.

Definition ret {A} (a : A) : M A := fun w => (Ok a, w).
Definition bind {A B} (m : M A) (k : A -> M B) : M B :=
  fun w => match m w with
           | (Ok a, w') => k a w'
           | (Err e, w') => (Err e, w')
           end.
Definition throw {A} (e : Error) : M A := fun w => (Err e, w).

Notation "x <- m ;; k" := (bind m (fun x => k))
  (at level 100, m at next level, right associativity).
Notation "m ;;; k" := (bind m (fun _ => k))
  (at level 100, right associativity).

(** [require!(cond, err)] *)
Definition require (b : bool) (e : GameError) : M unit :=
  if b then ret tt else throw (GameErr e).
(** [x.checked_op(y).ok_or(err)?] *)
Definition ok_or {A} (o : option A) (e : Error) : M A :=
  match o with Some a => ret a | None => throw e end.
(** [a + b] on [i64], panicking on overflow *)
Definition add_i64 (a b : Z) : M Z :=
  if (I64_MIN <=? a + b) && (a + b <=? I64_MAX) then ret (a + b)
  else throw ArithmeticPanic.

(** The runtime: a transaction whose handler fails leaves no trace. *)
Definition exec (m : M unit) (w : World) : result unit * World :=
  match m w with
  | (Ok a, w') => (Ok a, w')
  | (Err e, _) => (Err e, w)
  end.

Definition get_agent (k : Pubkey) : M Agent.t := fun w =>
  match w.(agents) !! k with
  | Some a => (Ok a, w)
  | None => (Err AccountNotInitialized, w)
  end.
Definition put_agent (k : Pubkey) (a : Agent.t) : M unit := fun w =>
  (Ok tt, set_agents (<[k := a]> w.(agents)) w).
Definition get_stake (k : Pubkey * Pubkey) : M StakeInfo.t := fun w =>
  match w.(stakes) !! k with
  | Some s => (Ok s, w)
  | None => (Err AccountNotInitialized, w)
  end.
Definition put_stake (k : Pubkey * Pubkey) (s : StakeInfo.t) : M unit := fun w =>
  (Ok tt, set_stakes (<[k := s]> w.(stakes)) w).
(** Anchor's [init]: the account must not exist yet; it is created zeroed. *)
Definition init_stake (k : Pubkey * Pubkey) : M unit := fun w =>
  match w.(stakes) !! k with
  | Some _ => (Err AccountAlreadyInUse, w)
  | None => (Ok tt, set_stakes (<[k := StakeInfo.default]> w.(stakes)) w)
  end.
Definition get_game : M Game.t := fun w => (Ok w.(game), w).
Definition put_game (g : Game.t) : M unit := fun w => (Ok tt, set_game g w).
Definition get_token (k : Pubkey) : M TokenAccount.t := fun w =>
  match w.(tokens) !! k with
  | Some a => (Ok a, w)
  | None => (Err AccountDidNotDeserialize, w)
  end.
Definition put_token (k : Pubkey) (a : TokenAccount.t) : M unit := fun w =>
  (Ok tt, set_tokens (<[k := a]> w.(tokens)) w).

(** [TokenAccount::try_deserialize(..)?.amount] / [unpack_from_slice(..)?.amount] *)
Definition read_token_amount (k : Pubkey) : M Z :=
  a <- get_token k ;; ret a.(TokenAccount.amount).

(** The SPL token program's [Transfer] (single mint, no delegates): the
    source must hold the amount and be owned by the signing authority; a
    transfer to the source itself changes nothing; the destination balance
    is a checked [u64] addition. *)
Definition token_transfer (from to auth amount : Pubkey) : M unit :=
  src <- get_token from ;;
  dst <- get_token to ;;
  if negb (amount <=? src.(TokenAccount.amount)) then throw TokenInsufficientFunds
  else if negb (src.(TokenAccount.owner) =? auth) then throw TokenOwnerMismatch
  else if from =? to then ret tt
  else
    nd <- ok_or (checked_add_u64 dst.(TokenAccount.amount) amount) TokenOverflow ;;
    put_token from (TokenAccount.set_amount (src.(TokenAccount.amount) - amount) src) ;;;
    put_token to (TokenAccount.set_amount nd dst).

(* ------------------------------------------------------------------ *)
(** ** Stake vault (instructions/token.rs) *)

Definition ONE_HOUR : Z := 3600.

(** [add_stake_to_game]: the first entry of [total_stake_accounts] for the
    staker grows by [amount] (checked); without one a new entry is pushed. *)
Fixpoint add_stake_entries (staker amount : Pubkey) (l : list Game.StakerStake)
    : result (list Game.StakerStake) :=
  match l with
  | [] => Ok [Game.mkStakerStake staker amount]
  | e :: r =>
      if e.(Game.staker) =? staker then
        match checked_add_u64 e.(Game.total_stake) amount with
        | Some v => Ok (Game.mkStakerStake e.(Game.staker) v :: r)
        | None => Err (GameErr NotEnoughTokens)
        end
      else match add_stake_entries staker amount r with
           | Ok r' => Ok (e :: r')
           | Err err => Err err
           end
  end.

(** [remove_stake_from_game]: checked subtraction on the first entry of the
    staker; nothing happens without one. *)
Fixpoint remove_stake_entries (staker amount : Pubkey) (l : list Game.StakerStake)
    : result (list Game.StakerStake) :=
  match l with
  | [] => Ok []
  | e :: r =>
      if e.(Game.staker) =? staker then
        match checked_sub_u64 e.(Game.total_stake) amount with
        | Some v => Ok (Game.mkStakerStake e.(Game.staker) v :: r)
        | None => Err (GameErr NotEnoughTokens)
        end
      else match remove_stake_entries staker amount r with
           | Ok r' => Ok (e :: r')
           | Err err => Err err
           end
  end.

Definition lift_result {A} (r : result A) : M A :=
  match r with Ok a => ret a | Err e => throw e end.

Definition add_stake_to_game (staker amount : Z) : M unit :=
  g <- get_game ;;
  l <- lift_result (add_stake_entries staker amount g.(Game.total_stake_accounts)) ;;
  put_game (Game.set_total_stake_accounts l g).

Definition remove_stake_from_game (staker amount : Z) : M unit :=
  g <- get_game ;;
  l <- lift_result (remove_stake_entries staker amount g.(Game.total_stake_accounts)) ;;
  put_game (Game.set_total_stake_accounts l g).

(** The share computation shared by [initialize_stake] and [stake_tokens]
    (token.rs 75-83 and 139-147).  [vault_balance_before] is the value the
    code reads from the vault account, which it reads after the CPI
    transfer of the deposit. *)
Definition shares_to_mint (deposit_amount vault_balance_before total_shares : Z)
    : option Z :=
  if (vault_balance_before =? deposit_amount) || (total_shares =? 0)
  then Some deposit_amount
  else match checked_mul_u128 deposit_amount total_shares with
       | Some p => checked_div p vault_balance_before
       | None => None
       end.

(** [initialize_stake] (token.rs 48-110).  Accounts: the agent, the new
    stake-info PDA [(agent, authority)], the staker's source token account,
    the agent's vault token account and the signing staker [authority]. *)
Definition initialize_stake (now : Z) (agent_key authority staker_source agent_vault : Pubkey)
    (deposit_amount : Z) : M unit :=
  let sk := (agent_key, authority) in
  _ <- get_agent agent_key ;;
  init_stake sk ;;;
  require (0 <? deposit_amount) InvalidAmount ;;;
  si <- get_stake sk ;;
  put_stake sk (StakeInfo.set_header agent_key authority si) ;;;
  token_transfer staker_source agent_vault authority deposit_amount ;;;
  vault_balance_before <- read_token_amount agent_vault ;;
  ag <- get_agent agent_key ;;
  let total_shares := ag.(Agent.total_shares) in
  mint <- ok_or (shares_to_mint deposit_amount vault_balance_before total_shares)
                (GameErr NotEnoughTokens) ;;
  ts <- ok_or (checked_add_u128 total_shares mint) (GameErr NotEnoughTokens) ;;
  put_agent agent_key (Agent.set_total_shares ts ag) ;;;
  ag <- get_agent agent_key ;;
  sb <- ok_or (checked_add_u128 ag.(Agent.staked_balance) deposit_amount)
              (GameErr NotEnoughTokens) ;;
  put_agent agent_key (Agent.set_staked_balance sb ag) ;;;
  si <- get_stake sk ;;
  put_stake sk (StakeInfo.set_shares mint (StakeInfo.set_amount deposit_amount si)) ;;;
  add_stake_to_game authority deposit_amount ;;;
  ce <- add_i64 now ONE_HOUR ;;
  si <- get_stake sk ;;
  put_stake sk (StakeInfo.set_cooldown_ends_at ce si).

(** [stake_tokens] (token.rs 115-178). *)
Definition stake_tokens (now : Z) (agent_key authority staker_source agent_vault : Pubkey)
    (deposit_amount : Z) : M unit :=
  let sk := (agent_key, authority) in
  _ <- get_agent agent_key ;;
  si <- get_stake sk ;;
  require (0 <? deposit_amount) InvalidAmount ;;;
  require si.(StakeInfo.is_initialized) NotEnoughTokens ;;;
  token_transfer staker_source agent_vault authority deposit_amount ;;;
  vault_balance_before <- read_token_amount agent_vault ;;
  ag <- get_agent agent_key ;;
  let total_shares := ag.(Agent.total_shares) in
  mint <- ok_or (shares_to_mint deposit_amount vault_balance_before total_shares)
                (GameErr NotEnoughTokens) ;;
  ts <- ok_or (checked_add_u128 total_shares mint) (GameErr NotEnoughTokens) ;;
  put_agent agent_key (Agent.set_total_shares ts ag) ;;;
  ag <- get_agent agent_key ;;
  sb <- ok_or (checked_add_u128 ag.(Agent.staked_balance) deposit_amount)
              (GameErr NotEnoughTokens) ;;
  put_agent agent_key (Agent.set_staked_balance sb ag) ;;;
  si <- get_stake sk ;;
  am <- ok_or (checked_add_u64 si.(StakeInfo.amount) deposit_amount) (GameErr NotEnoughTokens) ;;
  sh <- ok_or (checked_add_u128 si.(StakeInfo.shares) mint) (GameErr NotEnoughTokens) ;;
  put_stake sk (StakeInfo.set_shares sh (StakeInfo.set_amount am si)) ;;;
  add_stake_to_game authority deposit_amount ;;;
  ce <- add_i64 now ONE_HOUR ;;
  si <- get_stake sk ;;
  put_stake sk (StakeInfo.set_cooldown_ends_at ce si).

(** [unstake_tokens] (token.rs 183-261).  The [CooldownNotOver] check of
    lines 197-200 is commented out in the source and is not part of the
    instruction. *)
Definition unstake_tokens (now : Z) (agent_key authority agent_vault staker_destination
    game_authority : Pubkey) (shares_to_redeem : Z) : M unit :=
  let sk := (agent_key, authority) in
  _ <- get_agent agent_key ;;
  si <- get_stake sk ;;
  require si.(StakeInfo.is_initialized) NotEnoughTokens ;;;
  require (0 <? shares_to_redeem) InvalidAmount ;;;
  require (shares_to_redeem <=? si.(StakeInfo.shares)) NotEnoughTokens ;;;
  require (si.(StakeInfo.staker) =? authority) Unauthorized ;;;
  vault_balance <- read_token_amount agent_vault ;;
  ag <- get_agent agent_key ;;
  let total_shares := ag.(Agent.total_shares) in
  p <- ok_or (checked_mul_u128 shares_to_redeem vault_balance) (GameErr NotEnoughTokens) ;;
  withdraw_amount <- ok_or (checked_div p total_shares) (GameErr NotEnoughTokens) ;;
  ts <- ok_or (checked_sub_u128 total_shares shares_to_redeem) (GameErr NotEnoughTokens) ;;
  put_agent agent_key (Agent.set_total_shares ts ag) ;;;
  ag <- get_agent agent_key ;;
  sb <- ok_or (checked_sub_u128 ag.(Agent.staked_balance) withdraw_amount)
              (GameErr NotEnoughTokens) ;;
  put_agent agent_key (Agent.set_staked_balance sb ag) ;;;
  si <- get_stake sk ;;
  am <- ok_or (checked_sub_u64 si.(StakeInfo.amount) (as_u64 withdraw_amount))
              (GameErr NotEnoughTokens) ;;
  sh <- ok_or (checked_sub_u128 si.(StakeInfo.shares) shares_to_redeem)
              (GameErr NotEnoughTokens) ;;
  put_stake sk (StakeInfo.set_shares sh (StakeInfo.set_amount am si)) ;;;
  remove_stake_from_game authority (as_u64 withdraw_amount) ;;;
  token_transfer agent_vault staker_destination game_authority (as_u64 withdraw_amount).

(* ------------------------------------------------------------------ *)
(** ** Cooldown gate (state/agent.rs) *)

Definition MOVEMENT_COOLDOWN : Z := 3600.
Definition BATTLE_COOLDOWN : Z := 14400.

(** [x.pow(2)] on [i32], panicking on overflow. *)
Definition pow2_i32 (v : Z) : M Z :=
  if (- 2 ^ 31 <=? v * v) && (v * v <=? 2 ^ 31 - 1) then ret (v * v)
  else throw ArithmeticPanic.
Definition add_i32 (a b : Z) : M Z :=
  if (- 2 ^ 31 <=? a + b) && (a + b <=? 2 ^ 31 - 1) then ret (a + b)
  else throw ArithmeticPanic.

(** [Agent::validate_movement] (state/agent.rs 60-83).  The map-boundary
    test compares [sqrt((x^2 + y^2) as f64)] with [radius as f64]; the sum
    [s] is an [i32] below [2^31] and [radius] a non-negative [i32], and for
    such integers the correctly rounded square root is [<= radius] exactly
    when [s <= radius^2], which is what is written here. *)
Definition validate_movement (self : Agent.t) (new_x new_y map_diameter timestamp : Z)
    : M unit :=
  require self.(Agent.is_alive) AgentNotAlive ;;;
  t <- add_i64 self.(Agent.last_move) MOVEMENT_COOLDOWN ;;
  require (t <=? timestamp) MovementCooldown ;;;
  let radius := map_diameter / 2 in
  x2 <- pow2_i32 new_x ;;
  y2 <- pow2_i32 new_y ;;
  s <- add_i32 x2 y2 ;;
  require (s <=? radius * radius) OutOfBounds.

(** [Agent::validate_state] (state/agent.rs 86-103). *)
Definition validate_state (self : Agent.t) (timestamp : Z) : M unit :=
  require self.(Agent.is_alive) AgentNotAlive ;;;
  require (match self.(Agent.current_battle_start) with None => true | Some _ => false end)
    BattleInProgress ;;;
  t <- add_i64 self.(Agent.last_battle) BATTLE_COOLDOWN ;;
  require (t <=? timestamp) BattleCooldown.

(** Modelled from the spec: [Agent::validate_attack], called by the battle
    resolutions but not present in src/ ("can_attack: fails if
    now < last_attack + ATTACK_COOLDOWN (4h, 14400s)"). *)
Definition validate_attack (self : Agent.t) (now : Z) : M unit :=
  t <- add_i64 self.(Agent.last_attack) 14400 ;;
  require (t <=? now) BattleCooldown.

(** Modelled from the spec: [Agent::validate_alliance], called by
    [form_alliance] but not present in src/ ("can_ally: checks against
    last_alliance with a 4-hour cooldown"). *)
Definition validate_alliance (self : Agent.t) (now : Z) : M unit :=
  t <- add_i64 self.(Agent.last_alliance) 14400 ;;
  require (t <=? now) AllianceCooldown.

(** Modelled from the spec: the one-argument [validate_movement(now)] that
    [move_agent] calls, not present in src/ ("can_move: NotAlive if dead,
    cooldown if now < next_move_time"). *)
Definition can_move (self : Agent.t) (now : Z) : M unit :=
  require self.(Agent.is_alive) AgentNotAlive ;;;
  require (self.(Agent.next_move_time) <=? now) MovementCooldown.

Inductive TerrainType := Plain | Mountain | River.

(** Modelled from the spec: [apply_terrain_move_cooldown], not present in
    src/ (Plain 3600s, River 7200s, Mountain 10800s from [now]). *)
Definition terrain_duration (t : TerrainType) : Z :=
  match t with Plain => 3600 | River => 7200 | Mountain => 10800 end.

(* ------------------------------------------------------------------ *)
(** ** Movement (instructions/movement.rs) *)

(** [move_agent]: the [MoveAgent] accounts carry [has_one = authority] and
    [constraint = agent.is_alive @ AgentNotAlive]. *)
Definition move_agent (now : Z) (agent_key signer : Pubkey) (new_x new_y : Z)
    (terrain : TerrainType) : M unit :=
  ag <- get_agent agent_key ;;
  (if ag.(Agent.authority) =? signer then ret tt else throw ConstraintHasOne) ;;;
  require ag.(Agent.is_alive) AgentNotAlive ;;;
  can_move ag now ;;;
  let ag := Agent.set_move new_x new_y now ag in
  nm <- add_i64 now (terrain_duration terrain) ;;
  put_agent agent_key (Agent.set_next_move_time nm ag).

(* ------------------------------------------------------------------ *)
(** ** Battles (instructions/battle.rs) *)

Definition AGENT_VS_ALLIANCE_COOLDOWN : Z := 3500.
Definition ALLIANCE_VS_ALLIANCE_COOLDOWN : Z := 3600.
Definition SIMPLE_BATTLE_COOLDOWN : Z := 3600.

Definition is_none {A} (o : option A) : bool :=
  match o with None => true | Some _ => false end.

(** [start_battle_simple] (battle.rs 76-99). *)
Definition start_battle_simple (now : Z) (winner loser : Pubkey) : M unit :=
  w <- get_agent winner ;;
  l <- get_agent loser ;;
  require w.(Agent.is_alive) AgentNotAlive ;;;
  require l.(Agent.is_alive) AgentNotAlive ;;;
  require (is_none w.(Agent.battle_start_time)) BattleAlreadyStarted ;;;
  require (is_none l.(Agent.battle_start_time)) BattleAlreadyStarted ;;;
  put_agent winner (Agent.set_battle_start_time (Some now) w) ;;;
  put_agent loser (Agent.set_battle_start_time (Some now) l).

(** [start_battle_agent_vs_alliance] (battle.rs 14-39). *)
Definition start_battle_agent_vs_alliance (now : Z) (attacker leader partner : Pubkey)
    : M unit :=
  a <- get_agent attacker ;;
  l <- get_agent leader ;;
  p <- get_agent partner ;;
  require a.(Agent.is_alive) AgentNotAlive ;;;
  require l.(Agent.is_alive) AgentNotAlive ;;;
  require p.(Agent.is_alive) AgentNotAlive ;;;
  require (is_none a.(Agent.battle_start_time)) BattleAlreadyStarted ;;;
  require (is_none l.(Agent.battle_start_time)) BattleAlreadyStarted ;;;
  require (is_none p.(Agent.battle_start_time)) BattleAlreadyStarted ;;;
  put_agent attacker (Agent.set_battle_start_time (Some now) a) ;;;
  put_agent leader (Agent.set_battle_start_time (Some now) l) ;;;
  put_agent partner (Agent.set_battle_start_time (Some now) p).

(** [start_battle_alliance_vs_alliance] (battle.rs 42-73). *)
Definition start_battle_alliance_vs_alliance (now : Z) (leader_a partner_a leader_b partner_b : Pubkey)
    : M unit :=
  la <- get_agent leader_a ;;
  pa <- get_agent partner_a ;;
  lb <- get_agent leader_b ;;
  pb <- get_agent partner_b ;;
  require la.(Agent.is_alive) AgentNotAlive ;;;
  require pa.(Agent.is_alive) AgentNotAlive ;;;
  require lb.(Agent.is_alive) AgentNotAlive ;;;
  require pb.(Agent.is_alive) AgentNotAlive ;;;
  require (is_none la.(Agent.battle_start_time)) BattleAlreadyStarted ;;;
  require (is_none pa.(Agent.battle_start_time)) BattleAlreadyStarted ;;;
  require (is_none lb.(Agent.battle_start_time)) BattleAlreadyStarted ;;;
  require (is_none pb.(Agent.battle_start_time)) BattleAlreadyStarted ;;;
  put_agent leader_a (Agent.set_battle_start_time (Some now) la) ;;;
  put_agent partner_a (Agent.set_battle_start_time (Some now) pa) ;;;
  put_agent leader_b (Agent.set_battle_start_time (Some now) lb) ;;;
  put_agent partner_b (Agent.set_battle_start_time (Some now) pb).

(** The loss of a two-member losing alliance (battle.rs 145-154, 271-279,
    307-315): [total_lost] from the alliance balance, the leader's
    proportional share, and the remainder for the partner. *)
Definition alliance_loss_split (leader_amount alliance_balance percent_lost : Z)
    : option (Z * Z * Z) :=
  match checked_mul_u64 alliance_balance percent_lost with
  | None => None
  | Some p =>
      match checked_div p 100 with
      | None => None
      | Some total_lost =>
          let leader_deduction :=
            if 0 <? alliance_balance
            then as_u64 (total_lost * leader_amount / alliance_balance) else 0 in
          match checked_sub_u64 total_lost leader_deduction with
          | None => None
          | Some partner_deduction => Some (total_lost, leader_deduction, partner_deduction)
          end
      end
  end.

(** The loss of a single losing agent against an alliance (battle.rs
    183-189): [lost_amount], its half, and the remainder. *)
Definition single_loss_split (single_balance percent_lost : Z) : option (Z * Z * Z) :=
  match checked_mul_u64 single_balance percent_lost with
  | None => None
  | Some p =>
      match checked_div p 100 with
      | None => None
      | Some lost_amount =>
          match checked_div lost_amount 2 with
          | None => None
          | Some half_loss =>
              match checked_sub_u64 lost_amount half_loss with
              | None => None
              | Some remainder => Some (lost_amount, half_loss, remainder)
              end
          end
      end
  end.

(** [if amount > 0 { transfer(..) }] *)
Definition transfer_if_pos (from to auth amount : Pubkey) : M unit :=
  if 0 <? amount then token_transfer from to auth amount else ret tt.

(** Stamp [last_attack = now] after [validate_attack], and clear
    [battle_start_time]. *)
Definition stamp_attack (k : Pubkey) (now : Z) : M unit :=
  a <- get_agent k ;;
  validate_attack a now ;;;
  put_agent k (Agent.set_last_attack now a).
Definition set_attack (k : Pubkey) (now : Z) : M unit :=
  a <- get_agent k ;;
  put_agent k (Agent.set_last_attack now a).
Definition clear_battle (k : Pubkey) : M unit :=
  a <- get_agent k ;;
  put_agent k (Agent.set_battle_start_time None a).

(** The token accounts and their signing owners passed to a resolution. *)
Record Party := mkParty { p_agent : Pubkey; p_token : Pubkey; p_authority : Pubkey }.

(** [resolve_battle_agent_vs_alliance] (battle.rs 102-218). *)
Definition resolve_battle_agent_vs_alliance (now : Z) (authority : Pubkey)
    (single leader partner : Party) (percent_lost : Z) (agent_is_winner : bool) : M unit :=
  g <- get_game ;;
  require (authority =? g.(Game.authority)) Unauthorized ;;;
  sa <- get_agent single.(p_agent) ;;
  battle_start <- ok_or sa.(Agent.battle_start_time) (GameErr BattleNotStarted) ;;
  t <- add_i64 battle_start AGENT_VS_ALLIANCE_COOLDOWN ;;
  require (t <=? now) BattleNotReadyToResolve ;;;
  stamp_attack single.(p_agent) now ;;;
  set_attack leader.(p_agent) now ;;;
  set_attack partner.(p_agent) now ;;;
  clear_battle single.(p_agent) ;;;
  clear_battle leader.(p_agent) ;;;
  clear_battle partner.(p_agent) ;;;
  single_amount <- read_token_amount single.(p_token) ;;
  leader_amount <- read_token_amount leader.(p_token) ;;
  partner_amount <- read_token_amount partner.(p_token) ;;
  alliance_balance <- ok_or (checked_add_u64 leader_amount partner_amount)
                            (GameErr InsufficientFunds) ;;
  if agent_is_winner then
    split <-
      ok_or (alliance_loss_split leader_amount alliance_balance percent_lost)
            (GameErr InsufficientFunds) ;;
    let '(total_lost, leader_deduction, partner_deduction) := split in
    transfer_if_pos leader.(p_token) single.(p_token) leader.(p_authority) leader_deduction ;;;
    transfer_if_pos partner.(p_token) single.(p_token) partner.(p_authority) partner_deduction
  else
    split <-
      ok_or (single_loss_split single_amount percent_lost) (GameErr InsufficientFunds) ;;
    let '(lost_amount, half_loss, remainder) := split in
    transfer_if_pos single.(p_token) leader.(p_token) single.(p_authority) half_loss ;;;
    transfer_if_pos single.(p_token) partner.(p_token) single.(p_authority) remainder.

(** [resolve_battle_alliance_vs_alliance] (battle.rs 221-344). *)
Definition resolve_battle_alliance_vs_alliance (now : Z) (authority : Pubkey)
    (leader_a partner_a leader_b partner_b : Party) (percent_lost : Z)
    (alliance_a_wins : bool) : M unit :=
  g <- get_game ;;
  require (authority =? g.(Game.authority)) Unauthorized ;;;
  la <- get_agent leader_a.(p_agent) ;;
  lb <- get_agent leader_b.(p_agent) ;;
  battle_start_a <- ok_or la.(Agent.battle_start_time) (GameErr BattleNotStarted) ;;
  battle_start_b <- ok_or lb.(Agent.battle_start_time) (GameErr BattleNotStarted) ;;
  ta <- add_i64 battle_start_a ALLIANCE_VS_ALLIANCE_COOLDOWN ;;
  require (ta <=? now) BattleNotReadyToResolve ;;;
  tb <- add_i64 battle_start_b ALLIANCE_VS_ALLIANCE_COOLDOWN ;;
  require (tb <=? now) BattleNotReadyToResolve ;;;
  stamp_attack leader_a.(p_agent) now ;;;
  stamp_attack partner_a.(p_agent) now ;;;
  stamp_attack leader_b.(p_agent) now ;;;
  stamp_attack partner_b.(p_agent) now ;;;
  clear_battle leader_a.(p_agent) ;;;
  clear_battle partner_a.(p_agent) ;;;
  clear_battle leader_b.(p_agent) ;;;
  clear_battle partner_b.(p_agent) ;;;
  la_amount <- read_token_amount leader_a.(p_token) ;;
  pa_amount <- read_token_amount partner_a.(p_token) ;;
  lb_amount <- read_token_amount leader_b.(p_token) ;;
  pb_amount <- read_token_amount partner_b.(p_token) ;;
  a_balance <- ok_or (checked_add_u64 la_amount pa_amount) (GameErr InsufficientFunds) ;;
  b_balance <- ok_or (checked_add_u64 lb_amount pb_amount) (GameErr InsufficientFunds) ;;
  if alliance_a_wins then
    split <-
      ok_or (alliance_loss_split lb_amount b_balance percent_lost) (GameErr InsufficientFunds) ;;
    let '(total_lost, leader_deduction, partner_deduction) := split in
    transfer_if_pos leader_b.(p_token) leader_a.(p_token) leader_b.(p_authority) leader_deduction ;;;
    transfer_if_pos partner_b.(p_token) partner_a.(p_token) partner_b.(p_authority) partner_deduction
  else
    split <-
      ok_or (alliance_loss_split la_amount a_balance percent_lost) (GameErr InsufficientFunds) ;;
    let '(total_lost, leader_deduction, partner_deduction) := split in
    transfer_if_pos leader_a.(p_token) leader_b.(p_token) leader_a.(p_authority) leader_deduction ;;;
    transfer_if_pos partner_a.(p_token) partner_b.(p_token) partner_a.(p_authority) partner_deduction.

(* ------------------------------------------------------------------ *)
(** ** Alliances (instructions/alliance.rs) *)

Definition pair_matches (a : Alliance.t) (i t : Pubkey) : bool :=
  ((a.(Alliance.agent1) =? i) && (a.(Alliance.agent2) =? t)) ||
  ((a.(Alliance.agent1) =? t) && (a.(Alliance.agent2) =? i)).

(** [form_alliance] lines 34-53: the first record of the pair is
    reactivated (or the call fails if it is active); without one a new
    record is pushed. *)
Fixpoint reactivate_or_push (i t now : Z) (l : list Alliance.t) : result (list Alliance.t) :=
  match l with
  | [] => Ok [Alliance.mk i t now true]
  | a :: r =>
      if pair_matches a i t then
        if negb a.(Alliance.is_active)
        then Ok (Alliance.mk a.(Alliance.agent1) a.(Alliance.agent2) now true :: r)
        else Err (GameErr AllianceAlreadyExists)
      else match reactivate_or_push i t now r with
           | Ok r' => Ok (a :: r')
           | Err e => Err e
           end
  end.

(** [break_alliance] lines 76-84: the first active record of the pair is
    deactivated; [None] when there is none. *)
Fixpoint deactivate_alliance (i t : Z) (l : list Alliance.t) : option (list Alliance.t) :=
  match l with
  | [] => None
  | a :: r =>
      if a.(Alliance.is_active) && pair_matches a i t
      then Some (Alliance.mk a.(Alliance.agent1) a.(Alliance.agent2) a.(Alliance.formed_at) false :: r)
      else match deactivate_alliance i t r with
           | Some r' => Some (a :: r')
           | None => None
           end
  end.

(** [form_alliance] (alliance.rs 8-56); [FormAlliance] has
    [has_one = authority] on the initiator. *)
Definition form_alliance (now : Z) (initiator target signer : Pubkey) : M unit :=
  ini <- get_agent initiator ;;
  (if ini.(Agent.authority) =? signer then ret tt else throw ConstraintHasOne) ;;;
  tgt <- get_agent target ;;
  validate_alliance ini now ;;;
  (if initiator =? target then throw (GameErr InvalidAlliancePartner) else ret tt) ;;;
  (if negb (is_none ini.(Agent.alliance_with)) || negb (is_none tgt.(Agent.alliance_with))
   then throw (GameErr AllianceAlreadyExists) else ret tt) ;;;
  put_agent initiator (Agent.set_alliance (Some target) now ini) ;;;
  put_agent target (Agent.set_alliance (Some initiator) now tgt) ;;;
  g <- get_game ;;
  l <- lift_result (reactivate_or_push initiator target now g.(Game.alliances)) ;;
  put_game (Game.set_alliances l g).

(** [break_alliance] (alliance.rs 59-87). *)
Definition break_alliance (initiator target signer : Pubkey) : M unit :=
  ini <- get_agent initiator ;;
  (if ini.(Agent.authority) =? signer then ret tt else throw ConstraintHasOne) ;;;
  tgt <- get_agent target ;;
  (match ini.(Agent.alliance_with) with
   | Some k => if k =? target then ret tt else throw (GameErr NoAllianceToBreak)
   | None => throw (GameErr NoAllianceToBreak)
   end) ;;;
  put_agent initiator (Agent.set_alliance None 0 ini) ;;;
  put_agent target (Agent.set_alliance None 0 tgt) ;;;
  g <- get_game ;;
  l <- ok_or (deactivate_alliance initiator target g.(Game.alliances))
             (GameErr AllianceNotFound) ;;
  put_game (Game.set_alliances l g).

(* ------------------------------------------------------------------ *)
(** ** Killing an agent (instructions/agent.rs) *)

(** [kill_agent] (agent.rs 69-102); [KillAgent] has [has_one = authority]
    on the agent.  A token account that does not deserialize is reported
    as [NotEnoughTokens]. *)
Definition kill_agent (authority agent_key agent_token winner_token : Pubkey) : M unit :=
  ag <- get_agent agent_key ;;
  (if ag.(Agent.authority) =? authority then ret tt else throw ConstraintHasOne) ;;;
  g <- get_game ;;
  require (authority =? g.(Game.authority)) Unauthorized ;;;
  put_agent agent_key (Agent.set_is_alive false ag) ;;;
  agent_balance <- (fun w => match w.(tokens) !! agent_token with
                             | Some t => (Ok t.(TokenAccount.amount), w)
                             | None => (Err (GameErr NotEnoughTokens), w)
                             end) ;;
  if 0 <? agent_balance
  then token_transfer agent_token winner_token authority agent_balance
  else ret tt.

(* ------------------------------------------------------------------ *)
(** ** Simple battles (instructions/battle.rs) *)

(** [resolve_battle_simple] (battle.rs 347-394): only the loser's
    [battle_start_time] is checked; both agents pass [validate_attack]
    before either is stamped. *)
Definition resolve_battle_simple (now : Z) (authority : Pubkey) (winner loser : Party)
    (percent_lost : Z) : M unit :=
  g <- get_game ;;
  require (authority =? g.(Game.authority)) Unauthorized ;;;
  la <- get_agent loser.(p_agent) ;;
  battle_start <- ok_or la.(Agent.battle_start_time) (GameErr BattleNotStarted) ;;
  t <- add_i64 battle_start SIMPLE_BATTLE_COOLDOWN ;;
  require (t <=? now) BattleNotReadyToResolve ;;;
  wa <- get_agent winner.(p_agent) ;;
  validate_attack wa now ;;;
  la <- get_agent loser.(p_agent) ;;
  validate_attack la now ;;;
  set_attack winner.(p_agent) now ;;;
  set_attack loser.(p_agent) now ;;;
  clear_battle winner.(p_agent) ;;;
  clear_battle loser.(p_agent) ;;;
  loser_amount <- read_token_amount loser.(p_token) ;;
  p <- ok_or (checked_mul_u64 loser_amount percent_lost) (GameErr InsufficientFunds) ;;
  lost_amount <- ok_or (checked_div p 100) (GameErr InsufficientFunds) ;;
  token_transfer loser.(p_token) winner.(p_token) loser.(p_authority) lost_amount.

(* ------------------------------------------------------------------ *)
(** ** Staking rewards (instructions/token.rs) *)

(** [f64] values are IEEE-754 binary64 numbers: [spec_float] with 53 bits
    of precision and maximal exponent 1024.  Rust's [as f64] conversion of
    an integer and its [*] and [/] round to nearest, ties to even. *)
Definition f64 := spec_float.
Definition f64_of_Z (z : Z) : f64 := binary_normalize 53 1024 z 0 false.
Definition f64_mul (a b : f64) : f64 := SFmul 53 1024 a b.
Definition f64_div (a b : f64) : f64 := SFdiv 53 1024 a b.

(** [v.floor() as u64]: the float-to-integer cast saturates (NaN and
    negative values give 0, values above [u64::MAX] give [u64::MAX]). *)
Definition floor_as_u64 (v : f64) : Z :=
  match v with
  | S754_zero _ | S754_nan | S754_infinity true | S754_finite true _ _ => 0
  | S754_infinity false => U64_MAX
  | S754_finite false m e =>
      Z.min U64_MAX (if 0 <=? e then Z.pos m * 2 ^ e else Z.pos m / 2 ^ (- e))
  end.

Definition DAILY_REWARD_TOKENS : Z := 500000.

(** [a - b] on [i64], panicking on overflow *)
Definition sub_i64 (a b : Z) : M Z :=
  if (I64_MIN <=? a - b) && (a - b <=? I64_MAX) then ret (a - b)
  else throw ArithmeticPanic.

(** token.rs 269 and 296-303: the reward for [time_elapsed] seconds,
    computed in [f64] from the staker's share proportion. *)
Definition user_reward (time_elapsed stake_shares total_shares : Z) : Z :=
  let REWARD_RATE_PER_SECOND := DAILY_REWARD_TOKENS / 86400 in
  let share_proportion := f64_div (f64_of_Z stake_shares) (f64_of_Z total_shares) in
  let user_reward_float :=
    f64_mul (f64_mul (f64_of_Z time_elapsed) (f64_of_Z REWARD_RATE_PER_SECOND))
            share_proportion in
  floor_as_u64 user_reward_float.

(** [claim_staking_rewards] (token.rs 267-331).  The cooldown checks of
    lines 283-292 are commented out in the source and are not part of the
    instruction. *)
Definition claim_staking_rewards (now : Z) (agent_key authority rewards_vault
    staker_destination rewards_authority : Pubkey) : M unit :=
  let sk := (agent_key, authority) in
  _ <- get_agent agent_key ;;
  si <- get_stake sk ;;
  require si.(StakeInfo.is_initialized) NotEnoughTokens ;;;
  require (si.(StakeInfo.staker) =? authority) Unauthorized ;;;
  d <- sub_i64 now si.(StakeInfo.last_reward_timestamp) ;;
  time_elapsed <- add_i64 d 1 ;;
  ag <- get_agent agent_key ;;
  let reward := user_reward time_elapsed si.(StakeInfo.shares) ag.(Agent.total_shares) in
  rv <- read_token_amount rewards_vault ;;
  require (reward <=? rv) NotEnoughTokens ;;;
  token_transfer rewards_vault staker_destination rewards_authority reward ;;;
  si <- get_stake sk ;;
  put_stake sk (StakeInfo.set_last_reward_timestamp now si).

(* ------------------------------------------------------------------ *)
(** ** Game lifecycle and agent registration (instructions/game.rs, agent.rs) *)

(** [end_game] (game.rs 31-39).  [EndGame] checks [has_one = authority]
    and [constraint = game.is_active @ GameNotActive]; the handler then
    repeats the second check. *)
Definition end_game (signer : Pubkey) : M unit :=
  g <- get_game ;;
  (if g.(Game.authority) =? signer then ret tt else throw ConstraintHasOne) ;;;
  require g.(Game.is_active) GameNotActive ;;;
  require g.(Game.is_active) GameNotActive ;;;
  put_game (Game.mk g.(Game.authority) false g.(Game.alliances) g.(Game.total_stake_accounts)).

Module AgentInfo.
(** state/agent_info.rs *)
Record t := mk { key : Pubkey; name : String.string }.
End AgentInfo.

(** A freshly created ([init]) agent account is zeroed. *)
Definition agent_default : Agent.t :=
  Agent.mk 0 0 0 false 0 0 None None 0 0 0 None 0 0 0.

(** Anchor's [init] on an agent PDA: the account must not exist yet. *)
Definition init_agent (k : Pubkey) : M unit := fun w =>
  match w.(agents) !! k with
  | Some _ => (Err AccountAlreadyInUse, w)
  | None => (Ok tt, set_agents (<[k := agent_default]> w.(agents)) w)
  end.

(** [register_agent] (agent.rs 7-65).  The game's [agents] list (the
    registry of [AgentInfo]s) is read by no other instruction; it is passed
    in and returned explicitly.  [RegisterAgent] creates the agent account
    ([init]) and then checks [constraint = game.is_active @ ReentrancyGuard]
    on the game before the handler runs. *)
Definition register_agent (agent_key signer : Pubkey) (x y : Z) (name : String.string)
    (registry : list AgentInfo.t) : M (list AgentInfo.t) :=
  init_agent agent_key ;;;
  g <- get_game ;;
  require g.(Game.is_active) ReentrancyGuard ;;;
  require (signer =? g.(Game.authority)) Unauthorized ;;;
  require g.(Game.is_active) GameNotActive ;;;
  require (negb (existsb (fun a => a.(AgentInfo.key) =? agent_key) registry))
    AgentAlreadyExists ;;;
  ag <- get_agent agent_key ;;
  put_agent agent_key
    (Agent.mk signer x y true 0 0 ag.(Agent.current_battle_start) None 0 0 0 None 0 0 0) ;;;
  ret (registry ++ [AgentInfo.mk agent_key name]).

(** The runtime for a handler that returns a value: on failure nothing is
    committed. *)
Definition exec_ret {A} (m : M A) (w : World) : result A * World :=
  match m w with
  | (Ok a, w') => (Ok a, w')
  | (Err e, _) => (Err e, w)
  end.

(* ------------------------------------------------------------------ *)
(** ** Test-only reset (instructions/battle.rs) *)

(** The fields that [reset_battle_times] clears. *)
Definition reset_battle_fields (a : Agent.t) : Agent.t :=
  Agent.mk a.(Agent.authority) a.(Agent.x) a.(Agent.y) a.(Agent.is_alive) a.(Agent.last_move)
     a.(Agent.last_battle) a.(Agent.current_battle_start) None 0 a.(Agent.last_alliance) 0
     a.(Agent.alliance_with) a.(Agent.alliance_timestamp) a.(Agent.staked_balance)
     a.(Agent.total_shares).



(* ------------------------------------------------------------------ *)
(** ** Reasoning about successful runs *)

(** [wp m Q w]: if [m] succeeds from [w] with value [a] in world [w'], then
    [Q a w'] holds. *)
Definition wp {A} (m : M A) (Q : A -> World -> Prop) (w : World) : Prop :=
  match m w with
  | (Ok a, w') => Q a w'
  | (Err _, _) => True
  end.

(** [twp m Q w]: [m] succeeds from [w], with a value and a world satisfying [Q]. *)
Definition twp {A} (m : M A) (Q : A -> World -> Prop) (w : World) : Prop :=
  match m w with
  | (Ok a, w') => Q a w'
  | (Err _, _) => False
  end.

(** [m] does not fail with the error [e], from any world. *)
Definition never_raises {A} (e : Error) (m : M A) : Prop :=
  forall w, fst (m w) <> Err e.

(** The sum of the shares of all stake-info accounts of agent [a]. *)
Definition share_sum (a : Pubkey) (m : gmap (Pubkey * Pubkey) StakeInfo.t) : Z :=
  map_fold (fun k s acc => if k.1 =? a then StakeInfo.shares s + acc else acc) 0 m.

(** Share conservation: every agent's [total_shares] is the sum of its
    stakers' shares. *)
Definition shares_conserved (w : World) : Prop :=
  forall a ag, w.(agents) !! a = Some ag -> share_sum a w.(stakes) = ag.(Agent.total_shares).

(** The shares held by the stake-info account [k] (0 if it does not exist). *)
Definition shares_at (k : Pubkey * Pubkey) (m : gmap (Pubkey * Pubkey) StakeInfo.t) : Z :=
  match m !! k with Some s => StakeInfo.shares s | None => 0 end.

(** The footprint of one staking instruction on agent [a] and staker
    [auth]: the agent and that single stake-info account are rewritten, and
    the same quantity [d] of shares is added to both. *)
Definition stake_effect (a auth : Pubkey) (w w' : World) : Prop :=
  exists ag ag' si' d,
    w.(agents) !! a = Some ag /\
    w'.(agents) = <[a := ag']> w.(agents) /\
    w'.(stakes) = <[(a, auth) := si']> w.(stakes) /\
    ag'.(Agent.total_shares) = ag.(Agent.total_shares) + d /\
    si'.(StakeInfo.shares) = shares_at (a, auth) w.(stakes) + d.

(** The total number of tokens held by the token accounts of [m]. *)
Definition token_supply (m : gmap Pubkey TokenAccount.t) : Z :=
  map_fold (fun _ t acc => TokenAccount.amount t + acc) 0 m.

(** The balance of the token account [k] (0 if it does not exist). *)
Definition amount_at (k : Pubkey) (m : gmap Pubkey TokenAccount.t) : Z :=
  match m !! k with Some t => TokenAccount.amount t | None => 0 end.

(** [m] moves tokens between token accounts but never mints or burns any. *)
Definition keeps_supply {A} (m : M A) : Prop :=
  forall w, wp m (fun _ w' => token_supply w'.(tokens) = token_supply w.(tokens)) w.

(** The world after [end_game]: the game is switched off, all else stays. *)
Definition game_ended (w : World) : World :=
  set_game (Game.mk w.(game).(Game.authority) false w.(game).(Game.alliances)
                    w.(game).(Game.total_stake_accounts)) w.

(** [m] runs alike on a world and on the same world with the game ended,
    and leaves the game ended. *)
Definition commutes_end {A} (m : M A) : Prop :=
  forall w, m (game_ended w) = (fst (m w), game_ended (snd (m w))).

(** The same, for a whole transaction. *)
Definition unaffected_by_end_game (m : M unit) : Prop :=
  forall w, exec m (game_ended w) = (fst (exec m w), game_ended (snd (exec m w))).

(** The number of alliance records of the pair [i], [t], in either order. *)
Definition pair_count (i t : Pubkey) (l : list Alliance.t) : nat :=
  length (List.filter (fun a => pair_matches a i t) l).

(** No pair of agents has two alliance records. *)
Definition alliances_unique (l : list Alliance.t) : Prop :=
  forall i t, (pair_count i t l <= 1)%nat.

(** The total of the first [total_stake_accounts] entry of [st], the one
    that [add_stake_entries] and [remove_stake_entries] update. *)
Fixpoint stake_of (st : Pubkey) (l : list Game.StakerStake) : option Z :=
  match l with
  | [] => None
  | e :: r => if e.(Game.staker) =? st then Some e.(Game.total_stake) else stake_of st r
  end.

(* ------------------------------------------------------------------ *)
(** ** A concrete world for the staking scenarios of the specification

    Game authority 99 owns the vault token account 200 of agent 1; staker
    10 pays from token account 110, staker 20 from token account 120. *)

Definition agent0 : Agent.t :=
  Agent.mk 99 0 0 true 0 0 None None 0 0 0 None 0 0 0.

Definition game0 : Game.t := Game.mk 99 true [] [].

(** Agent 1 with an empty vault and no shares. *)
Definition world_empty : World :=
  mkWorld {[ 1 := agent0 ]} ∅
    {[ 110 := TokenAccount.mk 10 5000; 120 := TokenAccount.mk 20 5000;
       200 := TokenAccount.mk 99 0 ]}
    game0.

(** The vault after staker 10 deposited 1000 into the empty vault. *)
Definition world_after_A : World :=
  snd (exec (initialize_stake 0 1 10 110 200 1000) world_empty).

(** A battle between agent 1 (alone) and the alliance of agents 2 and 3,
    started at time 0; their token accounts hold 1000, 900 and 100. *)
Definition agent_in_battle : Agent.t :=
  Agent.mk 99 0 0 true 0 0 None (Some 0) 0 0 0 None 0 0 0.

Definition world_battle : World :=
  mkWorld {[ 1 := agent_in_battle; 2 := agent0; 3 := agent0 ]} ∅
    {[ 301 := TokenAccount.mk 31 1000; 302 := TokenAccount.mk 32 900;
       303 := TokenAccount.mk 33 100 ]}
    game0.

Definition single_party : Party := mkParty 1 301 31.
Definition leader_party : Party := mkParty 2 302 32.
Definition partner_party : Party := mkParty 3 303 33.

(** Agent 1 is alive, agent 2 is dead; neither is allied. *)
Definition agent_dead : Agent.t :=
  Agent.mk 98 0 0 false 0 0 None None 0 0 0 None 0 0 0.

Definition world_dead_target : World :=
  mkWorld {[ 1 := agent0; 2 := agent_dead ]} ∅ ∅ game0.

(** Agents 1 and 2 point at each other as allies, but the game holds no
    alliance record for them. *)
Definition world_allied : World :=
  mkWorld {[ 1 := Agent.set_alliance (Some 2) 7 agent0;
             2 := Agent.set_alliance (Some 1) 7 agent0 ]} ∅ ∅ game0.

(** Agent 1's token account 301 holds 700 and is owned by the game
    authority; 302 is the winner's account. *)
Definition world_kill : World :=
  mkWorld {[ 1 := agent0 ]} ∅
    {[ 301 := TokenAccount.mk 99 700; 302 := TokenAccount.mk 40 100 ]}
    game0.

(** Agents 2 and 3 allied at time 7, with the game's record of the alliance. *)
Definition world_alliance : World :=
  mkWorld {[ 2 := Agent.set_alliance (Some 3) 7 agent0;
             3 := Agent.set_alliance (Some 2) 7 agent0 ]} ∅ ∅
    (Game.mk 99 true [Alliance.mk 2 3 7 true] []).

(** A rewards vault 500 holding 10^12 tokens, owned by 77. *)
Definition rewards_vault : TokenAccount.t := TokenAccount.mk 77 1000000000000.

(** [world_empty] and [world_after_A] with the rewards vault. *)
Definition world_empty_rewards : World :=
  set_tokens (<[500 := rewards_vault]> world_empty.(tokens)) world_empty.
Definition world_rewards : World :=
  set_tokens (<[500 := rewards_vault]> world_after_A.(tokens)) world_after_A.

(** [world_after_A] after the vault 200 grew from 1000 to 3000 tokens. *)
Definition world_topped : World :=
  set_tokens (<[200 := TokenAccount.mk 99 3000]> world_after_A.(tokens)) world_after_A.

(** Staker 10's stake and agent 1 in [world_after_A]: 1000 tokens for
    1000 shares. *)
Definition stake_A : StakeInfo.t := StakeInfo.mk 1 10 1000 1000 0 3600 true.
Definition agent_A : Agent.t := Agent.mk 99 0 0 true 0 0 None None 0 0 0 None 0 1000 1000.

(* ================================================================== *)
(** * Proofs *)

(** ** Weakest preconditions of the primitives *)
Lemma wp_bind {A B} (m : M A) (k : A -> M B) Q w :
  wp m (fun a w' => wp (k a) Q w') w -> wp (bind m k) Q w.
Proof. unfold wp, bind. destruct (m w) as [[a|e] w']; auto. Qed.
Lemma wp_ret {A} (a : A) Q w : Q a w -> wp (ret a) Q w.
Proof. done. Qed.
Lemma wp_throw {A} e (Q : A -> World -> Prop) w : wp (throw e) Q w.
Proof. done. Qed.
Lemma wp_require b e Q w : (b = true -> Q tt w) -> wp (require b e) Q w.
Proof. unfold require. destruct b; [intros H; apply H; done | done]. Qed.
Lemma wp_ok_or {A} (o : option A) e Q w : (forall a, o = Some a -> Q a w) -> wp (ok_or o e) Q w.
Proof. unfold ok_or. destruct o; [intros H; apply H; done | done]. Qed.
Lemma wp_lift_result {A} (r : result A) Q w : (forall a, r = Ok a -> Q a w) -> wp (lift_result r) Q w.
Proof. unfold lift_result. destruct r; [intros H; apply H; done | done]. Qed.
Lemma wp_add_i64 a b Q w : Q (a + b) w -> wp (add_i64 a b) Q w.
Proof. unfold add_i64. destruct (_ && _); done. Qed.
Lemma wp_get_agent k Q w : (forall ag, w.(agents) !! k = Some ag -> Q ag w) -> wp (get_agent k) Q w.
Proof. unfold wp, get_agent. destruct (agents w !! k); [auto | done]. Qed.
Lemma wp_put_agent k a Q w : Q tt (set_agents (<[k := a]> w.(agents)) w) -> wp (put_agent k a) Q w.
Proof. done. Qed.
Lemma wp_get_stake k Q w : (forall s, w.(stakes) !! k = Some s -> Q s w) -> wp (get_stake k) Q w.
Proof. unfold wp, get_stake. destruct (stakes w !! k); [auto | done]. Qed.
Lemma wp_put_stake k s Q w : Q tt (set_stakes (<[k := s]> w.(stakes)) w) -> wp (put_stake k s) Q w.
Proof. done. Qed.
Lemma wp_init_stake k Q w :
  (w.(stakes) !! k = None -> Q tt (set_stakes (<[k := StakeInfo.default]> w.(stakes)) w)) ->
  wp (init_stake k) Q w.
Proof. unfold wp, init_stake. destruct (stakes w !! k); [done | auto]. Qed.
Lemma wp_get_game Q w : Q w.(game) w -> wp get_game Q w.
Proof. done. Qed.
Lemma wp_put_game g Q w : Q tt (set_game g w) -> wp (put_game g) Q w.
Proof. done. Qed.
Lemma wp_get_token k Q w : (forall t, w.(tokens) !! k = Some t -> Q t w) -> wp (get_token k) Q w.
Proof. unfold wp, get_token. destruct (tokens w !! k); [auto | done]. Qed.
Lemma wp_put_token k t Q w : Q tt (set_tokens (<[k := t]> w.(tokens)) w) -> wp (put_token k t) Q w.
Proof. done. Qed.
Lemma wp_consequence {A} (m : M A) (Q Q' : A -> World -> Prop) w :
  wp m Q w -> (forall a w', Q a w' -> Q' a w') -> wp m Q' w.
Proof. unfold wp. destruct (m w) as [[a|e] w']; auto. Qed.

(** One symbolic-execution step of [wp] over the primitives. *)
Ltac wp_step0 :=
  lazymatch goal with
  | |- wp (bind _ _) _ _ => apply wp_bind
  | |- wp (ret _) _ _ => apply wp_ret
  | |- wp (throw _) _ _ => apply wp_throw
  | |- wp (require _ _) _ _ => apply wp_require; intros ?Hreq
  | |- wp (ok_or _ _) _ _ => apply wp_ok_or; intros ?v ?Hv
  | |- wp (lift_result _) _ _ => apply wp_lift_result; intros ?v ?Hv
  | |- wp (add_i64 _ _) _ _ => apply wp_add_i64
  | |- wp (get_agent _) _ _ => apply wp_get_agent; intros ?ag ?Hag
  | |- wp (put_agent _ _) _ _ => apply wp_put_agent
  | |- wp (get_stake _) _ _ => apply wp_get_stake; intros ?si ?Hsi
  | |- wp (put_stake _ _) _ _ => apply wp_put_stake
  | |- wp (init_stake _) _ _ => apply wp_init_stake; intros ?Hnone
  | |- wp get_game _ _ => apply wp_get_game
  | |- wp (put_game _) _ _ => apply wp_put_game
  | |- wp (get_token _) _ _ => apply wp_get_token; intros ?tk ?Htk
  | |- wp (put_token _ _) _ _ => apply wp_put_token
  | |- wp (read_token_amount _) _ _ => unfold read_token_amount
  | |- wp (if ?b then _ else _) _ _ => destruct b eqn:?
  | |- wp (match ?o with _ => _ end) _ _ => destruct o eqn:?
  end; cbn [agents stakes tokens game set_agents set_stakes set_tokens set_game] in *.

(** token transfers only touch token accounts *)
(** ** Derived rules for the token program and the game's stake list *)

(** Token transfers only touch token accounts. *)
Lemma wp_token_transfer from to auth amount Q w :
  (forall w', w'.(agents) = w.(agents) -> w'.(stakes) = w.(stakes) -> w'.(game) = w.(game) -> Q tt w') ->
  wp (token_transfer from to auth amount) Q w.
Proof.
  intros H. unfold token_transfer, read_token_amount.
  repeat (wp_step0; simplify_map_eq; try apply H; try done).
Qed.
Lemma wp_add_stake_to_game st amt Q w :
  (forall g, Q tt (set_game g w)) -> wp (add_stake_to_game st amt) Q w.
Proof. intros H. unfold add_stake_to_game. repeat wp_step0. apply H. Qed.
Lemma wp_remove_stake_from_game st amt Q w :
  (forall g, Q tt (set_game g w)) -> wp (remove_stake_from_game st amt) Q w.
Proof. intros H. unfold remove_stake_from_game. repeat wp_step0. apply H. Qed.

(** [wp_step0] extended with the derived rules. *)
Ltac wp_step :=
  lazymatch goal with
  | |- wp (bind _ _) _ _ => apply wp_bind
  | |- wp (ret _) _ _ => apply wp_ret
  | |- wp (throw _) _ _ => apply wp_throw
  | |- wp (require _ _) _ _ => apply wp_require; intros ?Hreq
  | |- wp (ok_or _ _) _ _ => apply wp_ok_or; intros ?v ?Hv
  | |- wp (lift_result _) _ _ => apply wp_lift_result; intros ?v ?Hv
  | |- wp (add_i64 _ _) _ _ => apply wp_add_i64
  | |- wp (get_agent _) _ _ => apply wp_get_agent; intros ?ag ?Hag
  | |- wp (put_agent _ _) _ _ => apply wp_put_agent
  | |- wp (get_stake _) _ _ => apply wp_get_stake; intros ?si ?Hsi
  | |- wp (put_stake _ _) _ _ => apply wp_put_stake
  | |- wp (init_stake _) _ _ => apply wp_init_stake; intros ?Hnone
  | |- wp get_game _ _ => apply wp_get_game
  | |- wp (put_game _) _ _ => apply wp_put_game
  | |- wp (get_token _) _ _ => apply wp_get_token; intros ?tk ?Htk
  | |- wp (put_token _ _) _ _ => apply wp_put_token
  | |- wp (token_transfer _ _ _ _) _ _ =>
      apply wp_token_transfer; intros ?w ?Hagents ?Hstakes ?Hgame;
      rewrite ?Hagents, ?Hstakes, ?Hgame in *
  | |- wp (add_stake_to_game _ _) _ _ => apply wp_add_stake_to_game; intros ?g
  | |- wp (remove_stake_from_game _ _) _ _ => apply wp_remove_stake_from_game; intros ?g
  | |- wp (read_token_amount _) _ _ => unfold read_token_amount
  | |- wp (if ?b then _ else _) _ _ => destruct b eqn:?
  | |- wp (match ?o with _ => _ end) _ _ => destruct o eqn:?
  end; cbn [agents stakes tokens game set_agents set_stakes set_tokens set_game] in *.

(** ** Share conservation (C5) *)

(** Writing one stake-info account changes the agent's share sum by the
    difference of its shares. *)
Lemma share_sum_insert (b : Pubkey) (m : gmap (Pubkey * Pubkey) StakeInfo.t)
    (k : Pubkey * Pubkey) (s : StakeInfo.t) :
  share_sum b (<[k := s]> m) =
  share_sum b m + (if k.1 =? b then StakeInfo.shares s - shares_at k m else 0).
Proof.
  unfold share_sum.
  set (f := fun (k : Pubkey * Pubkey) (s : StakeInfo.t) (acc : Z) =>
              if k.1 =? b then StakeInfo.shares s + acc else acc).
  assert (Hcomm : forall j1 j2 z1 z2 y, f j1 z1 (f j2 z2 y) = f j2 z2 (f j1 z1 y)).
  { intros. unfold f. destruct (j1.1 =? b), (j2.1 =? b); lia. }
  destruct (m !! k) as [s0|] eqn:Hk.
  - rewrite (map_fold_delete_L f 0 k s0 m); [|intros; apply Hcomm|exact Hk].
    rewrite <- (insert_delete_eq m k s).
    rewrite (map_fold_insert_L f 0 k s (delete k m));
      [|intros; apply Hcomm|apply lookup_delete_eq].
    unfold shares_at; rewrite Hk. unfold f. destruct (k.1 =? b); lia.
  - rewrite (map_fold_insert_L f 0 k s m); [|intros; apply Hcomm|exact Hk].
    unfold shares_at; rewrite Hk. unfold f. destruct (k.1 =? b); lia.
Qed.

(** The footprint of a staking instruction preserves conservation. *)
Lemma stake_effect_conserves a auth w w' :
  shares_conserved w -> stake_effect a auth w w' -> shares_conserved w'.
Proof.
  intros Hinv (ag & ag' & si' & d & Hag & Ha' & Hs' & Ht & Hsh) b agb Hb.
  rewrite Hs', share_sum_insert. rewrite Ha' in Hb. cbn.
  destruct (decide (b = a)) as [->|Hne].
  - rewrite lookup_insert_eq in Hb. injection Hb as <-.
    rewrite (Hinv a ag Hag), Z.eqb_refl. lia.
  - rewrite lookup_insert_ne in Hb by congruence.
    rewrite (Hinv b agb Hb). destruct (a =? b) eqn:E; [apply Z.eqb_eq in E; congruence | lia].
Qed.

(** Each of the three staking instructions has that footprint. *)
Lemma wp_stake_tokens_effect now a auth src vault amt w :
  wp (stake_tokens now a auth src vault amt) (fun _ w' => stake_effect a auth w w') w.
Proof.
  unfold stake_tokens.
  repeat (wp_step; simplify_map_eq).
  rewrite ?Hagents, ?Hstakes in *. simplify_map_eq.
  unfold checked_add_u128 in *. repeat case_match; simplify_eq.
  eexists ag, _, _, v.
  rewrite !insert_insert_eq. unfold shares_at. rewrite Hsi. cbn. eauto.
Qed.

Lemma wp_initialize_stake_effect now a auth src vault amt w :
  wp (initialize_stake now a auth src vault amt) (fun _ w' => stake_effect a auth w w') w.
Proof.
  unfold initialize_stake.
  repeat (wp_step; simplify_map_eq).
  rewrite ?Hagents, ?Hstakes in *. simplify_map_eq.
  unfold checked_add_u128 in *. repeat case_match; simplify_eq.
  eexists ag, _, _, v.
  rewrite !insert_insert_eq. unfold shares_at. rewrite Hnone. cbn. eauto.
Qed.

Lemma wp_unstake_tokens_effect now a auth vault dest gauth sh w :
  wp (unstake_tokens now a auth vault dest gauth sh) (fun _ w' => stake_effect a auth w w') w.
Proof.
  unfold unstake_tokens.
  repeat (wp_step; simplify_map_eq).
  rewrite ?Hagents, ?Hstakes in *. simplify_map_eq.
  unfold checked_sub_u128 in *. repeat case_match; simplify_eq.
  eexists ag, _, _, (- sh).
  rewrite Hagents, Hstakes, !insert_insert_eq. unfold shares_at. rewrite Hsi. split; [exact Hag|]. split; [reflexivity|]. split; [reflexivity|]. cbn. split; lia.
Qed.

(** A committed run satisfies every [wp] postcondition. *)
Lemma exec_ok_wp m w w' (Q : unit -> World -> Prop) :
  exec m w = (Ok tt, w') -> wp m Q w -> Q tt w'.
Proof. unfold exec, wp. destruct (m w) as [[[]|e] w'']; congruence. Qed.

(** The precise effect of a successful transfer. *)
Lemma wp_token_transfer_full from to auth amount Q w :
  (forall s d, w.(tokens) !! from = Some s -> w.(tokens) !! to = Some d ->
     amount <= s.(TokenAccount.amount) -> s.(TokenAccount.owner) = auth ->
     (from = to -> Q tt w) /\
     (from <> to -> d.(TokenAccount.amount) + amount <= U64_MAX ->
        Q tt (set_tokens (<[to := TokenAccount.set_amount (d.(TokenAccount.amount) + amount) d]>
               (<[from := TokenAccount.set_amount (s.(TokenAccount.amount) - amount) s]> w.(tokens))) w))) ->
  wp (token_transfer from to auth amount) Q w.
Proof.
  intros H. unfold token_transfer.
  apply wp_bind, wp_get_token; intros s Hs.
  apply wp_bind, wp_get_token; intros d Hd.
  destruct (amount <=? TokenAccount.amount s) eqn:E1; cbn; [|done].
  destruct (TokenAccount.owner s =? auth) eqn:E2; cbn; [|done].
  apply Z.leb_le in E1. apply Z.eqb_eq in E2.
  destruct (H s d Hs Hd E1 E2) as [H1 H2].
  destruct (from =? to) eqn:E3.
  - apply Z.eqb_eq in E3. apply wp_ret, H1, E3.
  - apply Z.eqb_neq in E3. apply wp_bind, wp_ok_or; intros nd Hnd.
    unfold checked_add_u64 in Hnd.
    destruct (_ <=? U64_MAX) eqn:E4; [|discriminate]. injection Hnd as <-.
    apply Z.leb_le in E4.
    apply wp_bind, wp_put_token, wp_put_token. cbn. apply H2; auto.
Qed.

(** ** Total-correctness rules *)
Lemma twp_bind {A B} (m : M A) (k : A -> M B) Q w :
  twp m (fun a w' => twp (k a) Q w') w -> twp (bind m k) Q w.
Proof. unfold twp, bind. destruct (m w) as [[a|e] w']; auto. Qed.
Lemma twp_ret {A} (a : A) Q w : Q a w -> twp (ret a) Q w.
Proof. done. Qed.
Lemma twp_require b e Q w : b = true -> Q tt w -> twp (require b e) Q w.
Proof. intros ->. done. Qed.
Lemma twp_ok_or {A} (o : option A) a e Q w : o = Some a -> Q a w -> twp (ok_or o e) Q w.
Proof. intros ->. done. Qed.
Lemma twp_lift_result {A} (r : result A) a Q w : r = Ok a -> Q a w -> twp (lift_result r) Q w.
Proof. intros ->. done. Qed.
Lemma twp_get_agent k ag Q w : w.(agents) !! k = Some ag -> Q ag w -> twp (get_agent k) Q w.
Proof. unfold twp, get_agent. intros ->. done. Qed.
Lemma twp_put_agent k a Q w : Q tt (set_agents (<[k := a]> w.(agents)) w) -> twp (put_agent k a) Q w.
Proof. done. Qed.
Lemma twp_get_stake k s Q w : w.(stakes) !! k = Some s -> Q s w -> twp (get_stake k) Q w.
Proof. unfold twp, get_stake. intros ->. done. Qed.
Lemma twp_put_stake k s Q w : Q tt (set_stakes (<[k := s]> w.(stakes)) w) -> twp (put_stake k s) Q w.
Proof. done. Qed.
Lemma twp_get_game Q w : Q w.(game) w -> twp get_game Q w.
Proof. done. Qed.
Lemma twp_put_game g Q w : Q tt (set_game g w) -> twp (put_game g) Q w.
Proof. done. Qed.
Lemma twp_get_token k t Q w : w.(tokens) !! k = Some t -> Q t w -> twp (get_token k) Q w.
Proof. unfold twp, get_token. intros ->. done. Qed.
Lemma twp_put_token k t Q w : Q tt (set_tokens (<[k := t]> w.(tokens)) w) -> twp (put_token k t) Q w.
Proof. done. Qed.
Lemma twp_token_transfer from to auth amount s d Q w :
  w.(tokens) !! from = Some s -> w.(tokens) !! to = Some d -> from <> to ->
  amount <= s.(TokenAccount.amount) -> s.(TokenAccount.owner) = auth ->
  d.(TokenAccount.amount) + amount <= U64_MAX ->
  Q tt (set_tokens (<[to := TokenAccount.set_amount (d.(TokenAccount.amount) + amount) d]>
         (<[from := TokenAccount.set_amount (s.(TokenAccount.amount) - amount) s]> w.(tokens))) w) ->
  twp (token_transfer from to auth amount) Q w.
Proof.
  intros Hs Hd Hne Ham How Hov HQ. unfold token_transfer.
  apply twp_bind, (twp_get_token _ s); [done|].
  apply twp_bind, (twp_get_token _ d); [done|].
  apply Z.leb_le in Ham. apply Z.eqb_eq in How. apply Z.eqb_neq in Hne.
  rewrite Ham, How, Hne. cbn -[checked_add_u64].
  apply twp_bind, (twp_ok_or _ (TokenAccount.amount d + amount)).
  { unfold checked_add_u64. apply Z.leb_le in Hov. rewrite Hov. done. }
  apply twp_bind, twp_put_token, twp_put_token. exact HQ.
Qed.

(** After [add_stake_to_game] has credited [amt], the same staker can be
    debited [amt]. *)
Lemma add_then_remove_stake st amt l l' :
  0 <= amt -> Forall (fun e => 0 <= Game.total_stake e) l ->
  add_stake_entries st amt l = Ok l' -> exists l'', remove_stake_entries st amt l' = Ok l''.
Proof.
  intros Hamt Hl. revert l'. induction l as [|e r IH]; intros l' H; cbn in H; inversion Hl; subst.
  - injection H as <-. cbn. rewrite Z.eqb_refl. unfold checked_sub_u64.
    rewrite (proj2 (Z.leb_le amt amt) ltac:(lia)). eauto.
  - destruct (Game.staker e =? st) eqn:E.
    + unfold checked_add_u64 in H. destruct (_ <=? U64_MAX); [|discriminate].
      injection H as <-. cbn. rewrite E. unfold checked_sub_u64.
      match goal with |- context [?x <=? ?y] => rewrite (proj2 (Z.leb_le x y)) by lia end.
      eauto.
    + destruct (add_stake_entries st amt r) as [r'|] eqn:Er; [|discriminate].
      injection H as <-. destruct (IH ltac:(done) r' eq_refl) as [l'' Hl''].
      cbn. rewrite E, Hl''. eauto.
Qed.

Lemma wp_add_stake_to_game_full st amt Q w :
  (forall l, add_stake_entries st amt w.(game).(Game.total_stake_accounts) = Ok l ->
     Q tt (set_game (Game.set_total_stake_accounts l w.(game)) w)) ->
  wp (add_stake_to_game st amt) Q w.
Proof.
  intros H. unfold add_stake_to_game.
  apply wp_bind, wp_get_game, wp_bind, wp_lift_result; intros l Hl.
  apply wp_put_game, H, Hl.
Qed.

(** Deposit into an empty vault: the facts the round trip relies on. *)
(** ** Deposit / withdraw round trip (C8) *)

(** A deposit of [X] into an empty vault. *)
Lemma wp_initialize_stake_empty now a auth src vault X ag v s w :
  w.(agents) !! a = Some ag -> ag.(Agent.total_shares) = 0 ->
  w.(tokens) !! vault = Some v -> v.(TokenAccount.amount) = 0 ->
  w.(tokens) !! src = Some s ->
  wp (initialize_stake now a auth src vault X) (fun _ w1 =>
    exists ag1 si1 l1,
      w1.(agents) !! a = Some ag1 /\ ag1.(Agent.total_shares) = X /\
      ag1.(Agent.staked_balance) = ag.(Agent.staked_balance) + X /\
      w1.(stakes) !! (a, auth) = Some si1 /\ si1.(StakeInfo.is_initialized) = true /\
      si1.(StakeInfo.staker) = auth /\ si1.(StakeInfo.shares) = X /\ si1.(StakeInfo.amount) = X /\
      src <> vault /\ 0 < X /\ X <= s.(TokenAccount.amount) /\ s.(TokenAccount.owner) = auth /\
      w1.(tokens) = <[vault := TokenAccount.set_amount X v]>
                      (<[src := TokenAccount.set_amount (s.(TokenAccount.amount) - X) s]> w.(tokens)) /\
      add_stake_entries auth X w.(game).(Game.total_stake_accounts) = Ok l1 /\
      w1.(game).(Game.total_stake_accounts) = l1) w.
Proof.
  intros Ha Hts Hv Hv0 Hs. unfold initialize_stake.
  repeat (lazymatch goal with
          | |- wp (token_transfer _ _ _ _) _ _ => fail
          | _ => wp_step
          end; simplify_map_eq).
  apply wp_token_transfer_full; intros s' d' Hs' Hd' Ham How; cbn in Hs', Hd'.
  rewrite Hs in Hs'; rewrite Hv in Hd'; injection Hs' as <-; injection Hd' as <-.
  apply Z.ltb_lt in Hreq. split.
  { intros <-. rewrite Hs in Hv. injection Hv as <-. lia. }
  intros Hne Hov.
  repeat (lazymatch goal with
          | |- wp (add_stake_to_game _ _) _ _ =>
              apply wp_add_stake_to_game_full; intros ?l ?Hl
          | _ => wp_step
          end; simplify_map_eq).
  rewrite Hv0, Hts in *. unfold shares_to_mint in Hv1.
  rewrite Z.eqb_refl in Hv1. cbn in Hv1. injection Hv1 as <-.
  unfold checked_add_u128 in Hv2, Hv3.
  destruct (0 + X <=? U128_MAX) in Hv2; [|discriminate]. injection Hv2 as <-.
  destruct (_ <=? U128_MAX) in Hv3; [|discriminate]. injection Hv3 as <-.
  do 3 eexists. cbn. repeat split; eauto; lia.
Qed.

Lemma twp_remove_stake_from_game st amt l Q w :
  remove_stake_entries st amt w.(game).(Game.total_stake_accounts) = Ok l ->
  Q tt (set_game (Game.set_total_stake_accounts l w.(game)) w) ->
  twp (remove_stake_from_game st amt) Q w.
Proof.
  intros Hl HQ. unfold remove_stake_from_game.
  apply twp_bind, twp_get_game, twp_bind, (twp_lift_result _ l); [exact Hl|].
  apply twp_put_game, HQ.
Qed.

Lemma exec_twp (m : M unit) Q w :
  twp m Q w -> exists w', exec m w = (Ok tt, w') /\ Q tt w'.
Proof. unfold twp, exec. destruct (m w) as [[[]|e] w']; [eauto|done]. Qed.

Ltac leb_true := rewrite (proj2 (Z.leb_le _ _)) by (unfold U64_MAX, U128_MAX in *; nia).

(** C8: depositing [X] into an empty vault (balance 0, no shares) with
    [initialize_stake] mints exactly [X] shares, and redeeming these [X]
    shares right away with [unstake_tokens] succeeds and gives the staker's
    account exactly [X] back, restoring both accounts. *)
Lemma deposit_withdraw_roundtrip now now' a auth src vault gauth X ag v s w w1 :
  w.(agents) !! a = Some ag -> ag.(Agent.total_shares) = 0 -> 0 <= ag.(Agent.staked_balance) ->
  w.(tokens) !! vault = Some v -> v.(TokenAccount.amount) = 0 -> v.(TokenAccount.owner) = gauth ->
  w.(tokens) !! src = Some s -> s.(TokenAccount.amount) <= U64_MAX ->
  Forall (fun e => 0 <= Game.total_stake e) w.(game).(Game.total_stake_accounts) ->
  exec (initialize_stake now a auth src vault X) w = (Ok tt, w1) ->
  shares_at (a, auth) w1.(stakes) = X /\
  w1.(tokens) !! src = Some (TokenAccount.set_amount (s.(TokenAccount.amount) - X) s) /\
  exists w2, exec (unstake_tokens now' a auth vault src gauth X) w1 = (Ok tt, w2) /\
    w2.(tokens) !! src = Some s /\ w2.(tokens) !! vault = Some v.
Proof.
  intros Ha Hts Hsb Hv Hv0 Hvo Hs Hsu Hgame Hexec.
  eapply exec_ok_wp in Hexec; [|eapply wp_initialize_stake_empty; eauto].
  destruct Hexec as (ag1 & si1 & l1 & Ha1 & Hts1 & Hsb1 & Hsi1 & Hin & Hst & Hsh & Ham
                     & Hne & HX & HXs & How & Htok & Hl1 & Hg1).
  split; [unfold shares_at; rewrite Hsi1; done|].
  split; [rewrite Htok; simplify_map_eq; done|].
  destruct (add_then_remove_stake auth X _ _ ltac:(lia) Hgame Hl1) as [l2 Hl2].
  assert (Hw : as_u64 X = X) by (unfold as_u64; apply Z.mod_small; unfold U64_MAX in *; lia).
  apply (exec_twp _ (fun _ w2 => w2.(tokens) !! src = Some s /\ w2.(tokens) !! vault = Some v)).
  unfold unstake_tokens, read_token_amount.
  apply twp_bind, (twp_get_agent _ ag1); [done|].
  apply twp_bind, (twp_get_stake _ si1); [done|].
  apply twp_bind, twp_require; [done|].
  apply twp_bind, twp_require; [apply Z.ltb_lt; lia|].
  apply twp_bind, twp_require; [apply Z.leb_le; lia|].
  apply twp_bind, twp_require; [apply Z.eqb_eq; lia|].
  apply twp_bind, twp_bind, (twp_get_token _ (TokenAccount.set_amount X v));
    [rewrite Htok; simplify_map_eq; done|].
  apply twp_ret; cbn.
  apply twp_bind, (twp_get_agent _ ag1); [done|].
  rewrite Hts1.
  apply twp_bind, (twp_ok_or _ (X * X)); [unfold checked_mul_u128; leb_true; done|].
  apply twp_bind, (twp_ok_or _ X).
  { unfold checked_div. rewrite (proj2 (Z.eqb_neq X 0)) by lia. f_equal. apply Z.div_mul. lia. }
  apply twp_bind, (twp_ok_or _ 0); [unfold checked_sub_u128; leb_true; f_equal; lia|].
  apply twp_bind, twp_put_agent; cbn.
  apply twp_bind, (twp_get_agent _ (Agent.set_total_shares 0 ag1)); [simplify_map_eq; done|].
  apply twp_bind, (twp_ok_or _ (Agent.staked_balance ag)); [unfold checked_sub_u128; cbn; leb_true; f_equal; lia|].
  apply twp_bind, twp_put_agent; cbn.
  apply twp_bind, (twp_get_stake _ si1); [done|].
  rewrite Hw.
  apply twp_bind, (twp_ok_or _ 0); [unfold checked_sub_u64; leb_true; f_equal; lia|].
  apply twp_bind, (twp_ok_or _ 0); [unfold checked_sub_u128; leb_true; f_equal; lia|].
  apply twp_bind, twp_put_stake; cbn.
  apply twp_bind, (twp_remove_stake_from_game _ _ l2); [cbn; rewrite Hg1; done|]; cbn.
  apply (twp_token_transfer _ _ _ _ (TokenAccount.set_amount X v)
           (TokenAccount.set_amount (TokenAccount.amount s - X) s));
    cbn; rewrite ?Htok; try (simplify_map_eq; done); cbn; try lia.
  destruct s as [so sa], v as [vo va]; cbn in *. subst va.
  unfold TokenAccount.set_amount; cbn.
  replace (sa - X + X) with sa by lia. replace (X - X) with 0 by lia.
  split; simplify_map_eq; done.
Qed.

(** ** kill_agent (C10) *)

(** C10: a successful [kill_agent] marks the agent dead and moves the whole
    balance of its token account to the winner's account (no transfer when
    the balance is zero); the agent's [total_shares] and every stake-info
    account are left as they were, so the shares of the emptied account
    stay outstanding. *)
Lemma kill_agent_effect authority a agent_token winner_token w w' ag t :
  w.(agents) !! a = Some ag -> w.(tokens) !! agent_token = Some t -> agent_token <> winner_token ->
  exec (kill_agent authority a agent_token winner_token) w = (Ok tt, w') ->
  w'.(agents) = <[a := Agent.set_is_alive false ag]> w.(agents) /\
  Agent.is_alive (Agent.set_is_alive false ag) = false /\
  Agent.total_shares (Agent.set_is_alive false ag) = Agent.total_shares ag /\
  w'.(stakes) = w.(stakes) /\
  (0 < t.(TokenAccount.amount) -> exists d, w.(tokens) !! winner_token = Some d /\
     w'.(tokens) = <[winner_token := TokenAccount.set_amount (d.(TokenAccount.amount) + t.(TokenAccount.amount)) d]>
                   (<[agent_token := TokenAccount.set_amount 0 t]> w.(tokens))) /\
  (t.(TokenAccount.amount) <= 0 -> w'.(tokens) = w.(tokens)).
Proof.
  intros Ha Ht Hne Hexec. pattern w'.
  match goal with |- ?P w' => apply (exec_ok_wp _ w w' (fun _ => P) Hexec) end.
  unfold kill_agent.
  repeat (lazymatch goal with
          | |- wp (token_transfer _ _ _ _) _ _ => fail
          | |- wp (fun w => match w.(tokens) !! _ with _ => _ end) _ _ =>
              unfold wp at 1; cbn; rewrite Ht; cbn
          | _ => wp_step
          end; simplify_map_eq; try done).
  - apply Z.ltb_lt in Heqb0.
    apply wp_token_transfer_full; intros s d Hs Hd Ham How; cbn in Hs, Hd.
    rewrite Ht in Hs; injection Hs as <-. split; [done|].
    intros _ Hov. cbn. repeat split; try lia.
    intros _. exists d. split; [done|]. do 2 f_equal. unfold TokenAccount.set_amount. f_equal. lia.
  - apply Z.ltb_ge in Heqb0. repeat split; try lia.
Qed.

(** A world without stakes in which every agent has no shares is conserved. *)
Lemma shares_conserved_init w :
  w.(stakes) = ∅ -> (forall a ag, w.(agents) !! a = Some ag -> ag.(Agent.total_shares) = 0) ->
  shares_conserved w.
Proof.
  intros Hs Ha a ag Hag. rewrite Hs, (Ha a ag Hag). unfold share_sum. apply map_fold_empty.
Qed.

(** C5: the share sum of every agent equals its [total_shares] initially,
    and every successful [initialize_stake], [stake_tokens] and
    [unstake_tokens] preserves this equality. *)
Theorem share_conservation :
  (forall w, w.(stakes) = ∅ ->
     (forall a ag, w.(agents) !! a = Some ag -> ag.(Agent.total_shares) = 0) ->
     shares_conserved w) /\
  (forall now a auth src vault amt w w', shares_conserved w ->
     exec (initialize_stake now a auth src vault amt) w = (Ok tt, w') -> shares_conserved w') /\
  (forall now a auth src vault amt w w', shares_conserved w ->
     exec (stake_tokens now a auth src vault amt) w = (Ok tt, w') -> shares_conserved w') /\
  (forall now a auth vault dest gauth sh w w', shares_conserved w ->
     exec (unstake_tokens now a auth vault dest gauth sh) w = (Ok tt, w') -> shares_conserved w').
Proof.
  split; [exact shares_conserved_init|].
  split; [|split]; intros * Hinv Hexec; apply (stake_effect_conserves a auth w w' Hinv).
  - exact (exec_ok_wp _ _ _ (fun _ w' => stake_effect a auth w w') Hexec
             (wp_initialize_stake_effect now a auth src vault amt w)).
  - exact (exec_ok_wp _ _ _ (fun _ w' => stake_effect a auth w w') Hexec
             (wp_stake_tokens_effect now a auth src vault amt w)).
  - exact (exec_ok_wp _ _ _ (fun _ w' => stake_effect a auth w w') Hexec
             (wp_unstake_tokens_effect now a auth vault dest gauth sh w)).
Qed.

(** ** Cooldown boundaries (C9) *)
Lemma add_i64_in_range a b w :
  is_i64 (a + b) -> add_i64 a b w = (Ok (a + b), w).
Proof.
  unfold is_i64, add_i64. intros [H1 H2].
  rewrite (proj2 (Z.leb_le _ _) H1), (proj2 (Z.leb_le _ _) H2). done.
Qed.

(** C9: for a live agent, [validate_movement] at
    [last_move + MOVEMENT_COOLDOWN] passes the movement-cooldown check and
    one second earlier fails with [MovementCooldown]; with no battle in
    progress, [validate_state] succeeds at [last_battle + BATTLE_COOLDOWN]
    and fails with [BattleCooldown] one second earlier. *)
Theorem cooldown_boundary (self : Agent.t) (new_x new_y map_diameter : Z) (w : World) :
  self.(Agent.is_alive) = true ->
  is_i64 (self.(Agent.last_move) + MOVEMENT_COOLDOWN) ->
  is_i64 (self.(Agent.last_battle) + BATTLE_COOLDOWN) ->
  fst (validate_movement self new_x new_y map_diameter
         (self.(Agent.last_move) + MOVEMENT_COOLDOWN) w) <> Err (GameErr MovementCooldown) /\
  fst (validate_movement self new_x new_y map_diameter
         (self.(Agent.last_move) + MOVEMENT_COOLDOWN - 1) w) = Err (GameErr MovementCooldown) /\
  (self.(Agent.current_battle_start) = None ->
   fst (validate_state self (self.(Agent.last_battle) + BATTLE_COOLDOWN) w) = Ok tt /\
   fst (validate_state self (self.(Agent.last_battle) + BATTLE_COOLDOWN - 1) w)
     = Err (GameErr BattleCooldown)).
Proof.
  intros Halive Hm Hb.
  assert (Em : (I64_MIN <=? self.(Agent.last_move) + MOVEMENT_COOLDOWN) &&
               (self.(Agent.last_move) + MOVEMENT_COOLDOWN <=? I64_MAX) = true)
    by (unfold is_i64 in Hm; apply andb_true_intro; split; apply Z.leb_le; lia).
  assert (Eb : (I64_MIN <=? self.(Agent.last_battle) + BATTLE_COOLDOWN) &&
               (self.(Agent.last_battle) + BATTLE_COOLDOWN <=? I64_MAX) = true)
    by (unfold is_i64 in Hb; apply andb_true_intro; split; apply Z.leb_le; lia).
  assert (Fm : (self.(Agent.last_move) + MOVEMENT_COOLDOWN <=?
                self.(Agent.last_move) + MOVEMENT_COOLDOWN - 1) = false) by (apply Z.leb_gt; lia).
  assert (Fb : (self.(Agent.last_battle) + BATTLE_COOLDOWN <=?
                self.(Agent.last_battle) + BATTLE_COOLDOWN - 1) = false) by (apply Z.leb_gt; lia).
  unfold validate_movement, validate_state, add_i64, require, bind, ret, throw.
  rewrite Halive, Em, Eb, Fm, Fb, !Z.leb_refl.
  split; [|split; [done|]].
  - unfold pow2_i32, add_i32, bind, ret, throw. repeat case_match; cbn; congruence.
  - intros ->. done.
Qed.

(** ** Battle settlements (C2, C3) *)

(** C3 (amended): when the single agent loses against an alliance, its
    loss [lost_amount = floor(balance * percent_lost / 100)] is split evenly
    and does not depend on the members' balances: the leader receives
    [floor(lost_amount / 2)] and the partner the rest. *)
Theorem resolve_agent_loses_even_split now authority (single leader partner : Party)
    percent_lost w w' s l p :
  w.(tokens) !! single.(p_token) = Some s ->
  w.(tokens) !! leader.(p_token) = Some l ->
  w.(tokens) !! partner.(p_token) = Some p ->
  single.(p_token) <> leader.(p_token) -> single.(p_token) <> partner.(p_token) ->
  leader.(p_token) <> partner.(p_token) ->
  0 <= s.(TokenAccount.amount) -> 0 <= percent_lost ->
  exec (resolve_battle_agent_vs_alliance now authority single leader partner percent_lost false) w
    = (Ok tt, w') ->
  let lost_amount := s.(TokenAccount.amount) * percent_lost / 100 in
  w'.(tokens) !! leader.(p_token) =
    Some (TokenAccount.set_amount (l.(TokenAccount.amount) + lost_amount / 2) l) /\
  w'.(tokens) !! partner.(p_token) =
    Some (TokenAccount.set_amount (p.(TokenAccount.amount) + (lost_amount - lost_amount / 2)) p) /\
  w'.(tokens) !! single.(p_token) =
    Some (TokenAccount.set_amount (s.(TokenAccount.amount) - lost_amount) s).
Proof.
  intros Hs Hl Hp Hsl Hsp Hlp Hs0 Hp0 Hexec lost_amount.
  pattern w'.
  match goal with |- ?P w' => apply (exec_ok_wp _ w w' (fun _ => P) Hexec) end.
  unfold resolve_battle_agent_vs_alliance, stamp_attack, set_attack, clear_battle,
    validate_attack, transfer_if_pos.
  repeat (lazymatch goal with
          | |- wp (token_transfer _ _ _ _) _ _ =>
              apply wp_token_transfer_full; intros ?s ?d ?Hs ?Hd ?Ham ?How; cbn in *;
              simplify_map_eq; split; [intros; congruence|intros ?Hne ?Hov]
          | _ => wp_step
          end; simplify_map_eq).
  all: unfold single_loss_split, checked_mul_u64, checked_div, checked_sub_u64 in *;
    repeat case_match; simplify_eq; cbn [Z.eqb] in *.
  all: repeat match goal with
         | H : (_ <? _) = false |- _ => apply Z.ltb_ge in H
         | H : (_ <? _) = true |- _ => apply Z.ltb_lt in H
         end.
  all: assert (0 <= TokenAccount.amount s * percent_lost) by nia.
  all: unfold lost_amount; destruct s, l, p; cbn in *;
    unfold TokenAccount.set_amount; cbn; repeat split; do 2 f_equal;
    set (X := amount * percent_lost) in *; clearbody X; Z.div_mod_to_equations; lia.
Qed.

(** [floor(L * p / 100)] exceeds [L] exactly when [L * (p - 100) >= 100]. *)
Lemma loss_exceeds_total_iff (loser_total percent_lost : Z) :
  0 <= loser_total ->
  loser_total < loser_total * percent_lost / 100 <-> 100 <= loser_total * (percent_lost - 100).
Proof.
  intros H0. split; intros H.
  - destruct (Z_lt_le_dec (loser_total * percent_lost) (100 * (loser_total + 1))) as [Hlt|Hge]; [|nia].
    assert (loser_total * percent_lost / 100 < loser_total + 1) by (apply Z.div_lt_upper_bound; lia). lia.
  - assert (loser_total + 1 <= loser_total * percent_lost / 100) by (apply Z.div_le_lower_bound; nia). lia.
Qed.

(** C2 (amended): for any [u8] [percent_lost] and [u64] balances whose
    product does not overflow, the leader and partner deductions of a
    losing alliance add up exactly to
    [total_lost = floor(loser_total * percent_lost / 100)]; [total_lost] is
    at most [loser_total] when [percent_lost <= 100], and, [percent_lost]
    not being range checked, exceeds it exactly when
    [loser_total * (percent_lost - 100) >= 100]. *)
Theorem alliance_loss_split_sums leader_amount partner_amount percent_lost :
  0 <= leader_amount -> 0 <= partner_amount -> 0 <= percent_lost <= 255 ->
  (leader_amount + partner_amount) * percent_lost <= U64_MAX ->
  let loser_total := leader_amount + partner_amount in
  let total_lost := loser_total * percent_lost / 100 in
  exists leader_deduction partner_deduction,
    alliance_loss_split leader_amount loser_total percent_lost
      = Some (total_lost, leader_deduction, partner_deduction) /\
    leader_deduction + partner_deduction = total_lost /\
    0 <= leader_deduction /\ 0 <= partner_deduction /\
    (percent_lost <= 100 -> total_lost <= loser_total) /\
    (loser_total < total_lost <-> 100 <= loser_total * (percent_lost - 100)).
Proof.
  intros Hl Hp Hpct Hov. cbv zeta.
  set (loser_total := leader_amount + partner_amount) in *.
  set (total_lost := loser_total * percent_lost / 100).
  assert (Hx : loser_total < total_lost <-> 100 <= loser_total * (percent_lost - 100))
    by (apply loss_exceeds_total_iff; unfold loser_total; lia).
  assert (Htl : 0 <= total_lost <= U64_MAX).
  { unfold total_lost, loser_total. split.
    - apply Z.div_pos; nia.
    - apply Z.div_le_upper_bound; [lia|]. unfold U64_MAX in *. nia. }
  assert (Hld : 0 < loser_total -> 0 <= total_lost * leader_amount / loser_total <= total_lost).
  { intros Hpos. split; [apply Z.div_pos; nia|].
    apply Z.div_le_upper_bound; [lia|]. unfold loser_total in *. nia. }
  unfold alliance_loss_split, checked_mul_u64, checked_div, checked_sub_u64.
  rewrite (proj2 (Z.leb_le _ _) Hov). cbn -[Z.mul Z.div].
  destruct (0 <? loser_total) eqn:Epos.
  - apply Z.ltb_lt in Epos. specialize (Hld Epos).
    assert (Has : as_u64 (total_lost * leader_amount / loser_total)
                  = total_lost * leader_amount / loser_total).
    { unfold as_u64. apply Z.mod_small. unfold U64_MAX in *. lia. }
    fold loser_total total_lost. rewrite Has.
    rewrite (proj2 (Z.leb_le _ _) (proj2 Hld)).
    do 2 eexists. split; [reflexivity|]. split; [lia|]. split; [lia|]. split; [lia|].
    split; [|exact Hx].
    intros Hle. unfold total_lost. apply Z.div_le_upper_bound; [lia|]. nia.
  - apply Z.ltb_ge in Epos.
    fold loser_total total_lost.
    rewrite (proj2 (Z.leb_le 0 total_lost) (proj1 Htl)).
    do 2 eexists. split; [reflexivity|]. split; [lia|]. split; [lia|]. split; [lia|].
    split; [|exact Hx].
    intros Hle. unfold total_lost. apply Z.div_le_upper_bound; [lia|]. nia.
Qed.

(** ** The cooldown of unstake_tokens (C4) *)

(** Rules for [never_raises]. *)
Section NeverRaises.
Variable e : Error.

Lemma nr_bind {A B} (m : M A) (k : A -> M B) :
  never_raises e m -> (forall a, never_raises e (k a)) -> never_raises e (bind m k).
Proof.
  intros Hm Hk w. unfold bind. specialize (Hm w).
  destruct (m w) as [[a|e'] w']; [apply Hk|cbn in *; congruence].
Qed.
Lemma nr_ret {A} (a : A) : never_raises e (ret a).
Proof. intros w. done. Qed.
Lemma nr_throw {A} e' : e' <> e -> never_raises e (@throw A e').
Proof. intros H w. cbn. congruence. Qed.
Lemma nr_require b e' : GameErr e' <> e -> never_raises e (require b e').
Proof. intros H. destruct b; [apply nr_ret|apply nr_throw, H]. Qed.
Lemma nr_ok_or {A} (o : option A) e' : e' <> e -> never_raises e (ok_or o e').
Proof. intros H. destruct o; [apply nr_ret|apply nr_throw, H]. Qed.
Lemma nr_lift_result {A} (r : result A) : r <> Err e -> never_raises e (lift_result r).
Proof. intros H. destruct r; [apply nr_ret|apply nr_throw; congruence]. Qed.
Lemma nr_if {A} (b : bool) (m1 m2 : M A) :
  never_raises e m1 -> never_raises e m2 -> never_raises e (if b then m1 else m2).
Proof. destruct b; auto. Qed.

Hypothesis He_acct : e <> AccountNotInitialized /\ e <> AccountDidNotDeserialize.

Lemma nr_get_agent k : never_raises e (get_agent k).
Proof. intros w. unfold get_agent. destruct (agents w !! k); cbn; naive_solver. Qed.
Lemma nr_put_agent k a : never_raises e (put_agent k a).
Proof. intros w. done. Qed.
Lemma nr_get_stake k : never_raises e (get_stake k).
Proof. intros w. unfold get_stake. destruct (stakes w !! k); cbn; naive_solver. Qed.
Lemma nr_put_stake k s : never_raises e (put_stake k s).
Proof. intros w. done. Qed.
Lemma nr_get_game : never_raises e get_game.
Proof. intros w. done. Qed.
Lemma nr_put_game g : never_raises e (put_game g).
Proof. intros w. done. Qed.
Lemma nr_get_token k : never_raises e (get_token k).
Proof. intros w. unfold get_token. destruct (tokens w !! k); cbn; naive_solver. Qed.
Lemma nr_put_token k t : never_raises e (put_token k t).
Proof. intros w. done. Qed.

End NeverRaises.

Ltac nr_step :=
  first
    [ apply nr_bind; [|intros ?]
    | apply nr_ret | apply nr_put_agent | apply nr_put_stake | apply nr_put_game
    | apply nr_put_token | apply nr_get_game
    | apply nr_get_agent; split; discriminate
    | apply nr_get_stake; split; discriminate
    | apply nr_get_token; split; discriminate
    | apply nr_require; discriminate
    | apply nr_ok_or; discriminate
    | apply nr_throw; discriminate
    | apply nr_if ].

Lemma remove_stake_entries_not_cooldown st amt l :
  remove_stake_entries st amt l <> Err (GameErr CooldownNotOver).
Proof.
  induction l as [|x r IH]; cbn; [done|].
  destruct (Game.staker x =? st); [destruct (checked_sub_u64 _ _); done|].
  destruct (remove_stake_entries st amt r); congruence.
Qed.

(** The share checks of [unstake_tokens] (token.rs 185-190): a success
    needs [0 < shares_to_redeem <= shares]; on an initialized stake a
    non-positive amount fails with [InvalidAmount] and one above the
    staker's shares with [NotEnoughTokens]. *)
Lemma unstake_share_checks now a auth vault dest gauth sh w :
  (fst (exec (unstake_tokens now a auth vault dest gauth sh) w) = Ok tt ->
     exists si, w.(stakes) !! (a, auth) = Some si /\ 0 < sh <= StakeInfo.shares si) /\
  (forall ag si, w.(agents) !! a = Some ag -> w.(stakes) !! (a, auth) = Some si ->
     StakeInfo.is_initialized si = true ->
     (sh <= 0 -> fst (exec (unstake_tokens now a auth vault dest gauth sh) w) = Err (GameErr InvalidAmount)) /\
     (0 < sh -> StakeInfo.shares si < sh ->
        fst (exec (unstake_tokens now a auth vault dest gauth sh) w) = Err (GameErr NotEnoughTokens))).
Proof.
  unfold exec, unstake_tokens, bind, get_agent, get_stake, require, ret, throw.
  split.
  - intros Hok.
    destruct (agents w !! a); cbn in Hok; [|congruence].
    destruct (stakes w !! (a, auth)) as [si|]; cbn in Hok; [|congruence].
    exists si. split; [done|].
    destruct (StakeInfo.is_initialized si); cbn in Hok; [|congruence].
    destruct (0 <? sh) eqn:E1; cbn in Hok; [|congruence].
    destruct (sh <=? StakeInfo.shares si) eqn:E2; cbn in Hok; [|congruence].
    apply Z.ltb_lt in E1. apply Z.leb_le in E2. lia.
  - intros ag si Hag Hsi Hi. rewrite Hag. cbn. rewrite Hsi. cbn. rewrite Hi. cbn. split.
    + intros Hle. rewrite (proj2 (Z.ltb_ge _ _) Hle). reflexivity.
    + intros Hlt Hgt. rewrite (proj2 (Z.ltb_lt _ _) Hlt). cbn.
      rewrite (proj2 (Z.leb_gt _ _) Hgt). reflexivity.
Qed.

(** C4 (amended): the outcome of [unstake_tokens] does not depend on the
    current time and it never fails with [CooldownNotOver]; it still
    requires [0 < shares_to_redeem <= shares] of the staker, failing with
    [InvalidAmount] and [NotEnoughTokens] otherwise. *)
Theorem unstake_ignores_cooldown now now' a auth vault dest gauth sh w :
  exec (unstake_tokens now a auth vault dest gauth sh) w
    = exec (unstake_tokens now' a auth vault dest gauth sh) w /\
  fst (exec (unstake_tokens now a auth vault dest gauth sh) w) <> Err (GameErr CooldownNotOver) /\
  (fst (exec (unstake_tokens now a auth vault dest gauth sh) w) = Ok tt ->
     exists si, w.(stakes) !! (a, auth) = Some si /\ 0 < sh <= StakeInfo.shares si) /\
  (forall ag si, w.(agents) !! a = Some ag -> w.(stakes) !! (a, auth) = Some si ->
     StakeInfo.is_initialized si = true ->
     (sh <= 0 -> fst (exec (unstake_tokens now a auth vault dest gauth sh) w) = Err (GameErr InvalidAmount)) /\
     (0 < sh -> StakeInfo.shares si < sh ->
        fst (exec (unstake_tokens now a auth vault dest gauth sh) w) = Err (GameErr NotEnoughTokens))).
Proof.
  split; [reflexivity|].
  split; [|apply unstake_share_checks].
  assert (H : never_raises (GameErr CooldownNotOver) (unstake_tokens now a auth vault dest gauth sh)).
  { unfold unstake_tokens, read_token_amount, remove_stake_from_game, token_transfer.
    repeat nr_step. apply nr_lift_result, remove_stake_entries_not_cooldown. }
  specialize (H w). unfold exec. destruct (unstake_tokens _ _ _ _ _ _ _ w) as [[]] ; cbn in *; congruence.
Qed.

(** ** Minted shares (C1) *)

(** Run [wp_step] through a handler, using the precise transfer rule. *)
Ltac wp_run :=
  repeat (lazymatch goal with
          | |- wp (token_transfer _ _ _ _) _ _ =>
              apply wp_token_transfer_full; intros ?s ?d ?Hs ?Hd ?Ham ?How; cbn in *;
              simplify_map_eq; split; [intros; subst; simplify_map_eq; try lia|intros ?Hne ?Hov]
          | _ => wp_step
          end; simplify_map_eq).

(** The shares minted by a deposit are computed from the vault balance
    read after the transfer, i.e. the balance before plus the deposit. *)
Lemma wp_initialize_stake_mint now a auth src vault A ag v w :
  w.(agents) !! a = Some ag -> w.(tokens) !! vault = Some v -> src <> vault ->
  wp (initialize_stake now a auth src vault A) (fun _ w' =>
    exists m, shares_to_mint A (v.(TokenAccount.amount) + A) ag.(Agent.total_shares) = Some m /\
              shares_at (a, auth) w'.(stakes) = m) w.
Proof.
  intros Ha Hv Hne. unfold initialize_stake. wp_run.
  exists v0. split; [done|]. unfold shares_at. simplify_map_eq. done.
Qed.

Lemma wp_stake_tokens_mint now a auth src vault A ag v w :
  w.(agents) !! a = Some ag -> w.(tokens) !! vault = Some v -> src <> vault ->
  wp (stake_tokens now a auth src vault A) (fun _ w' =>
    exists m, shares_to_mint A (v.(TokenAccount.amount) + A) ag.(Agent.total_shares) = Some m /\
              shares_at (a, auth) w'.(stakes) = shares_at (a, auth) w.(stakes) + m) w.
Proof.
  intros Ha Hv Hne. unfold stake_tokens. wp_run.
  unfold checked_add_u128 in Hv4. case_match; simplify_eq.
  exists v0. split; [done|]. unfold shares_at. simplify_map_eq. cbn. lia.
Qed.

(** C1: every successful [initialize_stake] or [stake_tokens] (with a
    source distinct from the vault) mints [shares_to_mint A (B + A) S],
    where [B] is the vault balance before the deposit and [S] the agent's
    total shares; in particular a deposit of 500 into a vault of 1000
    with 1000 shares mints 333 shares, not [floor(500 * 1000 / 1000) = 500]. *)
Theorem stake_mint_reads_post_deposit_balance :
  (forall now a auth src vault A ag v w w',
     w.(agents) !! a = Some ag -> w.(tokens) !! vault = Some v -> src <> vault ->
     exec (initialize_stake now a auth src vault A) w = (Ok tt, w') ->
     exists m, shares_to_mint A (v.(TokenAccount.amount) + A) ag.(Agent.total_shares) = Some m /\
               shares_at (a, auth) w'.(stakes) = m) /\
  (forall now a auth src vault A ag v w w',
     w.(agents) !! a = Some ag -> w.(tokens) !! vault = Some v -> src <> vault ->
     exec (stake_tokens now a auth src vault A) w = (Ok tt, w') ->
     exists m, shares_to_mint A (v.(TokenAccount.amount) + A) ag.(Agent.total_shares) = Some m /\
               shares_at (a, auth) w'.(stakes) = shares_at (a, auth) w.(stakes) + m) /\
  world_after_A.(tokens) !! 200 = Some (TokenAccount.mk 99 1000) /\
  option_map Agent.total_shares (world_after_A.(agents) !! 1) = Some 1000 /\
  fst (exec (initialize_stake 5 1 20 120 200 500) world_after_A) = Ok tt /\
  shares_at (1, 20) (snd (exec (initialize_stake 5 1 20 120 200 500) world_after_A)).(stakes) = 333.
Proof.
  split; [|split].
  - intros * Ha Hv Hne Hexec.
    exact (exec_ok_wp _ _ _ (fun _ w' => exists m,
             shares_to_mint A (v.(TokenAccount.amount) + A) ag.(Agent.total_shares) = Some m /\
             shares_at (a, auth) w'.(stakes) = m) Hexec
             (wp_initialize_stake_mint now a auth src vault A ag v w Ha Hv Hne)).
  - intros * Ha Hv Hne Hexec.
    exact (exec_ok_wp _ _ _ (fun _ w' => exists m,
             shares_to_mint A (v.(TokenAccount.amount) + A) ag.(Agent.total_shares) = Some m /\
             shares_at (a, auth) w'.(stakes) = shares_at (a, auth) w.(stakes) + m) Hexec
             (wp_stake_tokens_mint now a auth src vault A ag v w Ha Hv Hne)).
  - repeat split; vm_compute; reflexivity.
Qed.

(** C2, counterexample: [percent_lost = 200] (a valid [u8], not range
    checked) gives a [total_lost] of 200 for a losing alliance holding 100. *)
Lemma alliance_loss_split_exceeds_total :
  alliance_loss_split 50 (50 + 50) 200 = Some (200, 100, 100) /\ 50 + 50 < 200.
Proof. split; [vm_compute; reflexivity | lia]. Qed.

(** C2, witness: balances 900 and 100, [percent_lost = 10]. *)
Lemma alliance_loss_split_sums_witness :
  exists leader_deduction partner_deduction,
    alliance_loss_split 900 (900 + 100) 10
      = Some ((900 + 100) * 10 / 100, leader_deduction, partner_deduction) /\
    leader_deduction + partner_deduction = (900 + 100) * 10 / 100 /\
    0 <= leader_deduction /\ 0 <= partner_deduction /\
    (10 <= 100 -> (900 + 100) * 10 / 100 <= 900 + 100) /\
    (900 + 100 < (900 + 100) * 10 / 100 <-> 100 <= (900 + 100) * (10 - 100)).
Proof.
  exact (alliance_loss_split_sums 900 100 10 ltac:(lia) ltac:(lia) ltac:(lia)
           ltac:(unfold U64_MAX; lia)).
Defined.

(** C3, counterexample: the single agent (1000 tokens) loses 10% to an
    alliance holding 900 and 100; each member receives 50, where a
    proportional split would give 90 and 10. *)
Lemma agent_loses_split_is_even :
  fst (exec (resolve_battle_agent_vs_alliance 20000 99 single_party leader_party partner_party 10 false)
         world_battle) = Ok tt /\
  (snd (exec (resolve_battle_agent_vs_alliance 20000 99 single_party leader_party partner_party 10 false)
          world_battle)).(tokens) !! 302 = Some (TokenAccount.mk 32 950) /\
  (snd (exec (resolve_battle_agent_vs_alliance 20000 99 single_party leader_party partner_party 10 false)
          world_battle)).(tokens) !! 303 = Some (TokenAccount.mk 33 150) /\
  100 * 900 / (900 + 100) = 90 /\ 100 - 100 * 900 / (900 + 100) = 10.
Proof. repeat split; vm_compute; reflexivity. Qed.

(** C3, witness: the same battle. *)
Lemma resolve_agent_loses_even_split_witness :
  let w' := snd (exec (resolve_battle_agent_vs_alliance 20000 99 single_party leader_party
                         partner_party 10 false) world_battle) in
  let lost_amount := 1000 * 10 / 100 in
  w'.(tokens) !! 302 = Some (TokenAccount.set_amount (900 + lost_amount / 2) (TokenAccount.mk 32 900)) /\
  w'.(tokens) !! 303 = Some (TokenAccount.set_amount (100 + (lost_amount - lost_amount / 2))
                               (TokenAccount.mk 33 100)) /\
  w'.(tokens) !! 301 = Some (TokenAccount.set_amount (1000 - lost_amount) (TokenAccount.mk 31 1000)).
Proof.
  exact (resolve_agent_loses_even_split 20000 99 single_party leader_party partner_party 10
           world_battle _ (TokenAccount.mk 31 1000) (TokenAccount.mk 32 900) (TokenAccount.mk 33 100)
           ltac:(reflexivity) ltac:(reflexivity) ltac:(reflexivity)
           ltac:(cbn; lia) ltac:(cbn; lia) ltac:(cbn; lia) ltac:(cbn; lia) ltac:(lia)
           ltac:(vm_compute; reflexivity)).
Defined.

(** C4, counterexample: staker 10's cooldown ends at 3600, and unstaking
    all its shares at time 1 succeeds and returns its 1000 tokens. *)
Lemma unstake_before_cooldown_succeeds :
  option_map StakeInfo.cooldown_ends_at (world_after_A.(stakes) !! (1, 10)) = Some 3600 /\
  fst (exec (unstake_tokens 1 1 10 200 110 99 1000) world_after_A) = Ok tt /\
  (snd (exec (unstake_tokens 1 1 10 200 110 99 1000) world_after_A)).(tokens) !! 110
    = Some (TokenAccount.mk 10 5000).
Proof. repeat split; vm_compute; reflexivity. Qed.

(** C4, witness: staker 10 of [world_after_A] holds 1000 shares; redeeming
    none fails with [InvalidAmount] and redeeming 2000 with
    [NotEnoughTokens]. *)
Lemma unstake_ignores_cooldown_witness :
  fst (exec (unstake_tokens 1 1 10 200 110 99 0) world_after_A) = Err (GameErr InvalidAmount) /\
  fst (exec (unstake_tokens 1 1 10 200 110 99 2000) world_after_A) = Err (GameErr NotEnoughTokens).
Proof.
  split.
  - exact (proj1 (proj2 (proj2 (proj2 (unstake_ignores_cooldown 1 1 1 10 200 110 99 0 world_after_A)))
             agent_A stake_A ltac:(vm_compute; reflexivity)
             ltac:(vm_compute; reflexivity) ltac:(reflexivity)) ltac:(lia)).
  - exact (proj2 (proj2 (proj2 (proj2 (unstake_ignores_cooldown 1 1 1 10 200 110 99 2000 world_after_A)))
             agent_A stake_A ltac:(vm_compute; reflexivity)
             ltac:(vm_compute; reflexivity) ltac:(reflexivity)) ltac:(lia) ltac:(cbn; lia)).
Defined.

(** ** Dead agents and alliances (C6) *)

(** C6: [form_alliance] accepts a dead target: agent 2 is dead, yet the
    alliance with agent 1 is formed and agent 2 records it, whereas
    [start_battle_simple] rejects the same agent with [AgentNotAlive]. *)
Theorem form_alliance_accepts_dead_target :
  option_map Agent.is_alive (world_dead_target.(agents) !! 2) = Some false /\
  fst (exec (form_alliance 20000 1 2 99) world_dead_target) = Ok tt /\
  option_map Agent.alliance_with
    ((snd (exec (form_alliance 20000 1 2 99) world_dead_target)).(agents) !! 2) = Some (Some 1) /\
  fst (exec (start_battle_simple 20000 1 2) world_dead_target) = Err (GameErr AgentNotAlive).
Proof. repeat split; vm_compute; reflexivity. Qed.

(** ** Rollback of failed instructions (C7) *)

(** A failed instruction leaves the world as it was. *)
Lemma exec_err_unchanged (m : M unit) w e w' : exec m w = (Err e, w') -> w' = w.
Proof. unfold exec. destruct (m w) as [[[]|e'] w'']; congruence. Qed.

(** C7: a [break_alliance] that fails (with [NoAllianceToBreak], with
    [AllianceNotFound] or otherwise) leaves the whole world unchanged, in
    particular both agents' [alliance_with] and [alliance_timestamp] and the
    game's alliance list. *)
Theorem failed_break_alliance_rolls_back initiator target signer w e w' :
  exec (break_alliance initiator target signer) w = (Err e, w') -> w' = w.
Proof. apply exec_err_unchanged. Qed.

(** Without the rollback, the handler would leave the agents' alliance
    fields cleared when no alliance record is found. *)
Lemma break_alliance_handler_clears_before_failing :
  fst (break_alliance 1 2 99 world_allied) = Err (GameErr AllianceNotFound) /\
  option_map Agent.alliance_with ((snd (break_alliance 1 2 99 world_allied)).(agents) !! 1) = Some None /\
  option_map Agent.alliance_with (world_allied.(agents) !! 1) = Some (Some 2).
Proof. repeat split; vm_compute; reflexivity. Qed.

(** C7, witness: agents 1 and 2 point at each other but the game holds no
    alliance record. *)
Lemma failed_break_alliance_rolls_back_witness :
  exec (break_alliance 1 2 99) world_allied = (Err (GameErr AllianceNotFound), world_allied) /\
  world_allied = world_allied.
Proof.
  split; [vm_compute; reflexivity|].
  apply (failed_break_alliance_rolls_back 1 2 99 world_allied (GameErr AllianceNotFound)).
  vm_compute. reflexivity.
Defined.

(** C8, witness: staker 10 deposits 1000 into agent 1's empty vault and
    redeems its 1000 shares. *)
Lemma deposit_withdraw_roundtrip_witness :
  shares_at (1, 10) world_after_A.(stakes) = 1000 /\
  world_after_A.(tokens) !! 110 = Some (TokenAccount.set_amount (5000 - 1000) (TokenAccount.mk 10 5000)) /\
  exists w2, exec (unstake_tokens 1 1 10 200 110 99 1000) world_after_A = (Ok tt, w2) /\
    w2.(tokens) !! 110 = Some (TokenAccount.mk 10 5000) /\
    w2.(tokens) !! 200 = Some (TokenAccount.mk 99 0).
Proof.
  exact (deposit_withdraw_roundtrip 0 1 1 10 110 200 99 1000 agent0 (TokenAccount.mk 99 0)
           (TokenAccount.mk 10 5000) world_empty world_after_A
           ltac:(reflexivity) ltac:(reflexivity) ltac:(cbn; lia) ltac:(reflexivity)
           ltac:(reflexivity) ltac:(reflexivity) ltac:(reflexivity) ltac:(unfold U64_MAX; cbn; lia)
           ltac:(constructor) ltac:(vm_compute; reflexivity)).
Defined.

(** C9, witness: an agent that moved and fought at time 0. *)
Lemma cooldown_boundary_witness :
  fst (validate_movement agent0 3 4 100 (Agent.last_move agent0 + MOVEMENT_COOLDOWN) world_empty)
    <> Err (GameErr MovementCooldown) /\
  fst (validate_movement agent0 3 4 100 (Agent.last_move agent0 + MOVEMENT_COOLDOWN - 1) world_empty)
    = Err (GameErr MovementCooldown) /\
  (Agent.current_battle_start agent0 = None ->
   fst (validate_state agent0 (Agent.last_battle agent0 + BATTLE_COOLDOWN) world_empty) = Ok tt /\
   fst (validate_state agent0 (Agent.last_battle agent0 + BATTLE_COOLDOWN - 1) world_empty)
     = Err (GameErr BattleCooldown)).
Proof.
  apply cooldown_boundary; [reflexivity | ..];
    unfold is_i64, I64_MIN, I64_MAX, MOVEMENT_COOLDOWN, BATTLE_COOLDOWN; cbn; lia.
Defined.

(** C10, witness: agent 1's account holds 700. *)
Lemma kill_agent_effect_witness :
  let w' := snd (exec (kill_agent 99 1 301 302) world_kill) in
  w'.(agents) = <[1 := Agent.set_is_alive false agent0]> world_kill.(agents) /\
  Agent.is_alive (Agent.set_is_alive false agent0) = false /\
  Agent.total_shares (Agent.set_is_alive false agent0) = Agent.total_shares agent0 /\
  w'.(stakes) = world_kill.(stakes) /\
  (0 < 700 -> exists d, world_kill.(tokens) !! 302 = Some d /\
     w'.(tokens) = <[302 := TokenAccount.set_amount (d.(TokenAccount.amount) + 700) d]>
                   (<[301 := TokenAccount.set_amount 0 (TokenAccount.mk 99 700)]> world_kill.(tokens))) /\
  (700 <= 0 -> w'.(tokens) = world_kill.(tokens)).
Proof.
  exact (kill_agent_effect 99 1 301 302 world_kill _ agent0 (TokenAccount.mk 99 700)
           ltac:(reflexivity) ltac:(reflexivity) ltac:(lia) ltac:(vm_compute; reflexivity)).
Defined.

(* ================================================================== *)
(** * Further properties of the instructions *)

(** ** The game's stake list *)

Lemma add_stake_entries_stakers st amt l l' :
  add_stake_entries st amt l = Ok l' ->
  map Game.staker l' = if existsb (fun e => Game.staker e =? st) l then map Game.staker l
                       else map Game.staker l ++ [st].
Proof.
  revert l'. induction l as [|e r IH]; intros l' H; cbn in *.
  - injection H as <-. done.
  - destruct (Game.staker e =? st) eqn:E; cbn.
    + destruct (checked_add_u64 _ _); [|discriminate]. injection H as <-. done.
    + destruct (add_stake_entries st amt r) as [r'|] eqn:Er; [|discriminate].
      injection H as <-. cbn. rewrite (IH r' eq_refl). destruct (existsb _ r); done.
Qed.

Lemma stake_of_None st l :
  stake_of st l = None <-> existsb (fun e => Game.staker e =? st) l = false.
Proof.
  induction l as [|e r IH]; cbn; [done|].
  destruct (Game.staker e =? st); cbn; [done|exact IH].
Qed.

(** [add_stake_to_game] (token.rs 12-29): on a list without duplicate stakers, the entry of [st] gains [amt] (a new entry is appended if there is none), the list stays duplicate-free and every other staker's entry is unchanged. *)
Theorem add_stake_entries_spec st amt l l' :
  NoDup (map Game.staker l) ->
  add_stake_entries st amt l = Ok l' ->
  NoDup (map Game.staker l') /\
  stake_of st l' = Some (default 0 (stake_of st l) + amt) /\
  (forall st', st' <> st -> stake_of st' l' = stake_of st' l).
Proof.
  intros Hnd H. split.
  { rewrite (add_stake_entries_stakers _ _ _ _ H).
    destruct (existsb _ l) eqn:Ex; [done|].
    apply NoDup_app. split; [done|]. split; [|apply NoDup_singleton].
    intros x Hx Hin. apply list_elem_of_singleton in Hin; subst x.
    apply list_elem_of_In, in_map_iff in Hx as (e & He & Hel).
    assert (existsb (fun e => Game.staker e =? st) l = true) as Ht
      by (apply existsb_exists; exists e; split; [done|]; apply Z.eqb_eq; done).
    congruence. }
  clear Hnd. revert l' H. induction l as [|e r IH]; intros l' H; cbn in *.
  - injection H as <-. cbn. rewrite Z.eqb_refl. split; [f_equal; lia|].
    intros st' Hne. rewrite (proj2 (Z.eqb_neq st st')) by congruence. done.
  - destruct (Game.staker e =? st) eqn:E.
    + unfold checked_add_u64 in H. destruct (_ <=? U64_MAX); [|discriminate].
      injection H as <-. cbn. rewrite E. split; [done|].
      intros st' Hne. apply Z.eqb_eq in E.
      rewrite (proj2 (Z.eqb_neq (Game.staker e) st')) by congruence. done.
    + destruct (add_stake_entries st amt r) as [r'|] eqn:Er; [|discriminate].
      injection H as <-. cbn. rewrite E. destruct (IH r' eq_refl) as [H1 H2].
      split; [done|]. intros st' Hne. rewrite H2 by done. done.
Qed.

(** [remove_stake_from_game] (token.rs 31-43): a staker without an entry leaves the list unchanged; an entry smaller than [amt] fails with [NotEnoughTokens]; otherwise the entry loses [amt], the stakers keep their order and the other entries are unchanged. *)
Theorem remove_stake_entries_spec st amt l :
  (stake_of st l = None -> remove_stake_entries st amt l = Ok l) /\
  (forall v, stake_of st l = Some v -> v < amt ->
     remove_stake_entries st amt l = Err (GameErr NotEnoughTokens)) /\
  (forall v, stake_of st l = Some v -> amt <= v ->
     exists l', remove_stake_entries st amt l = Ok l' /\
       map Game.staker l' = map Game.staker l /\
       stake_of st l' = Some (v - amt) /\
       (forall st', st' <> st -> stake_of st' l' = stake_of st' l)).
Proof.
  induction l as [|e r (IH1 & IH2 & IH3)]; cbn.
  - split; [done|]. split; discriminate.
  - destruct (Game.staker e =? st) eqn:E.
    + unfold checked_sub_u64. split; [discriminate|]. split.
      * intros v [= <-] Hlt. rewrite (proj2 (Z.leb_gt _ _) Hlt). done.
      * intros v [= <-] Hle. rewrite (proj2 (Z.leb_le _ _) Hle).
        eexists. split; [done|]. cbn. rewrite E. split; [done|]. split; [done|].
        intros st' Hne. apply Z.eqb_eq in E.
        rewrite (proj2 (Z.eqb_neq (Game.staker e) st')) by congruence. done.
    + split; [intros H; rewrite (IH1 H); done|]. split.
      * intros v Hv Hlt. rewrite (IH2 v Hv Hlt). done.
      * intros v Hv Hle. destruct (IH3 v Hv Hle) as (l' & -> & Hm & Hs & Ho).
        eexists. split; [done|]. cbn. rewrite E, Hm. split; [done|]. split; [done|].
        intros st' Hne. rewrite Ho by done. done.
Qed.

Lemma token_supply_insert (m : gmap Pubkey TokenAccount.t) k t :
  token_supply (<[k := t]> m) = token_supply m + TokenAccount.amount t - amount_at k m.
Proof.
  unfold token_supply.
  set (f := fun (_ : Pubkey) (t : TokenAccount.t) (acc : Z) => TokenAccount.amount t + acc).
  assert (Hcomm : forall j1 j2 z1 z2 y, f j1 z1 (f j2 z2 y) = f j2 z2 (f j1 z1 y)).
  { intros. unfold f. lia. }
  unfold amount_at. destruct (m !! k) as [t0|] eqn:Hk.
  - rewrite (map_fold_delete_L f 0 k t0 m); [|intros; apply Hcomm|exact Hk].
    rewrite <- (insert_delete_eq m k t).
    rewrite (map_fold_insert_L f 0 k t (delete k m));
      [|intros; apply Hcomm|apply lookup_delete_eq].
    unfold f. lia.
  - rewrite (map_fold_insert_L f 0 k t m); [|intros; apply Hcomm|exact Hk].
    unfold f. lia.
Qed.

(** ** Rules for [keeps_supply] *)
Lemma ks_bind {A B} (m : M A) (k : A -> M B) :
  keeps_supply m -> (forall a, keeps_supply (k a)) -> keeps_supply (bind m k).
Proof.
  intros Hm Hk w. unfold wp, bind. specialize (Hm w). unfold wp in Hm.
  destruct (m w) as [[a|e] w']; [|done].
  specialize (Hk a w'). unfold wp in Hk. destruct (k a w') as [[b|e] w'']; [|done].
  rewrite Hk. exact Hm.
Qed.
Lemma ks_ret {A} (a : A) : keeps_supply (ret a).
Proof. intros w. done. Qed.
Lemma ks_throw {A} e : keeps_supply (@throw A e).
Proof. intros w. done. Qed.
Lemma ks_require b e : keeps_supply (require b e).
Proof. intros w. unfold require. destruct b; done. Qed.
Lemma ks_ok_or {A} (o : option A) e : keeps_supply (ok_or o e).
Proof. intros w. unfold ok_or. destruct o; done. Qed.
Lemma ks_lift_result {A} (r : result A) : keeps_supply (lift_result r).
Proof. intros w. unfold lift_result. destruct r; done. Qed.
Lemma ks_add_i64 a b : keeps_supply (add_i64 a b).
Proof. intros w. unfold add_i64. destruct (_ && _); done. Qed.
Lemma ks_sub_i64 a b : keeps_supply (sub_i64 a b).
Proof. intros w. unfold sub_i64. destruct (_ && _); done. Qed.
Lemma ks_get_agent k : keeps_supply (get_agent k).
Proof. intros w. unfold wp, get_agent. destruct (_ !! k); done. Qed.
Lemma ks_put_agent k a : keeps_supply (put_agent k a).
Proof. intros w. done. Qed.
Lemma ks_get_stake k : keeps_supply (get_stake k).
Proof. intros w. unfold wp, get_stake. destruct (_ !! k); done. Qed.
Lemma ks_put_stake k s : keeps_supply (put_stake k s).
Proof. intros w. done. Qed.
Lemma ks_init_stake k : keeps_supply (init_stake k).
Proof. intros w. unfold wp, init_stake. destruct (_ !! k); done. Qed.
Lemma ks_get_game : keeps_supply get_game.
Proof. intros w. done. Qed.
Lemma ks_put_game g : keeps_supply (put_game g).
Proof. intros w. done. Qed.
Lemma ks_get_token k : keeps_supply (get_token k).
Proof. intros w. unfold wp, get_token. destruct (_ !! k); done. Qed.
Lemma ks_token_transfer from to auth amount : keeps_supply (token_transfer from to auth amount).
Proof.
  intros w. apply wp_token_transfer_full. intros s d Hs Hd _ _. split; [done|].
  intros Hne _. cbn. rewrite !token_supply_insert.
  unfold amount_at. rewrite lookup_insert_ne by done. rewrite Hs, Hd. cbn. lia.
Qed.

Ltac ks_step :=
  lazymatch goal with
  | |- keeps_supply (bind _ _) => apply ks_bind; [|intros ?]
  | |- keeps_supply (ret _) => apply ks_ret
  | |- keeps_supply (throw _) => apply ks_throw
  | |- keeps_supply (require _ _) => apply ks_require
  | |- keeps_supply (ok_or _ _) => apply ks_ok_or
  | |- keeps_supply (lift_result _) => apply ks_lift_result
  | |- keeps_supply (add_i64 _ _) => apply ks_add_i64
  | |- keeps_supply (sub_i64 _ _) => apply ks_sub_i64
  | |- keeps_supply (get_agent _) => apply ks_get_agent
  | |- keeps_supply (put_agent _ _) => apply ks_put_agent
  | |- keeps_supply (get_stake _) => apply ks_get_stake
  | |- keeps_supply (put_stake _ _) => apply ks_put_stake
  | |- keeps_supply (init_stake _) => apply ks_init_stake
  | |- keeps_supply get_game => apply ks_get_game
  | |- keeps_supply (put_game _) => apply ks_put_game
  | |- keeps_supply (get_token _) => apply ks_get_token
  | |- keeps_supply (token_transfer _ _ _ _) => apply ks_token_transfer
  | |- keeps_supply (if ?b then _ else _) => destruct b
  | |- keeps_supply (match ?o with _ => _ end) => destruct o
  | |- keeps_supply _ =>
      unfold read_token_amount, add_stake_to_game, remove_stake_from_game, validate_attack,
        stamp_attack, set_attack, clear_battle, transfer_if_pos
  end.

Lemma keeps_supply_exec (m : M unit) w :
  keeps_supply m -> token_supply (snd (exec m w)).(tokens) = token_supply w.(tokens).
Proof.
  intros H. specialize (H w). unfold wp in H. unfold exec.
  destruct (m w) as [[[]|e] w']; done.
Qed.

(** The staking instructions only move tokens between accounts: after [initialize_stake], [stake_tokens], [unstake_tokens] or [claim_staking_rewards] the sum of all token balances is the one before, whether they succeed or fail. *)
Theorem staking_keeps_token_supply w now a auth src vault dest gauth amt sh rvault rauth :
  token_supply (snd (exec (initialize_stake now a auth src vault amt) w)).(tokens) = token_supply w.(tokens) /\
  token_supply (snd (exec (stake_tokens now a auth src vault amt) w)).(tokens) = token_supply w.(tokens) /\
  token_supply (snd (exec (unstake_tokens now a auth vault dest gauth sh) w)).(tokens) = token_supply w.(tokens) /\
  token_supply (snd (exec (claim_staking_rewards now a auth rvault dest rauth) w)).(tokens) = token_supply w.(tokens).
Proof.
  repeat split; apply keeps_supply_exec;
    [unfold initialize_stake|unfold stake_tokens|unfold unstake_tokens|unfold claim_staking_rewards];
    repeat ks_step.
Qed.

(** The three battle resolutions and [kill_agent] also keep the sum of all token balances. *)
Theorem battles_keep_token_supply w now auth (p1 p2 p3 p4 : Party) pct b a atok wt :
  token_supply (snd (exec (resolve_battle_simple now auth p1 p2 pct) w)).(tokens) = token_supply w.(tokens) /\
  token_supply (snd (exec (resolve_battle_agent_vs_alliance now auth p1 p2 p3 pct b) w)).(tokens) = token_supply w.(tokens) /\
  token_supply (snd (exec (resolve_battle_alliance_vs_alliance now auth p1 p2 p3 p4 pct b) w)).(tokens) = token_supply w.(tokens) /\
  token_supply (snd (exec (kill_agent auth a atok wt) w)).(tokens) = token_supply w.(tokens).
Proof.
  repeat split; apply keeps_supply_exec;
    [unfold resolve_battle_simple|unfold resolve_battle_agent_vs_alliance
    |unfold resolve_battle_alliance_vs_alliance|unfold kill_agent];
    repeat ks_step.
  intros w'. unfold wp. destruct (_ !! atok); done.
Qed.

Lemma ce_bind {A B} (m : M A) (k : A -> M B) :
  commutes_end m -> (forall a, commutes_end (k a)) -> commutes_end (bind m k).
Proof.
  intros Hm Hk w. unfold bind. rewrite Hm.
  destruct (m w) as [[a|e] w']; cbn; [apply Hk|done].
Qed.
Lemma ce_ret {A} (a : A) : commutes_end (ret a).
Proof. intros w. done. Qed.
Lemma ce_throw {A} e : commutes_end (@throw A e).
Proof. intros w. done. Qed.
Lemma ce_require b e : commutes_end (require b e).
Proof. intros w. unfold require. destruct b; done. Qed.
Lemma ce_ok_or {A} (o : option A) e : commutes_end (ok_or o e).
Proof. intros w. unfold ok_or. destruct o; done. Qed.
Lemma ce_lift_result {A} (r : result A) : commutes_end (lift_result r).
Proof. intros w. unfold lift_result. destruct r; done. Qed.
Lemma ce_add_i64 a b : commutes_end (add_i64 a b).
Proof. intros w. unfold add_i64. destruct (_ && _); done. Qed.
Lemma ce_sub_i64 a b : commutes_end (sub_i64 a b).
Proof. intros w. unfold sub_i64. destruct (_ && _); done. Qed.
Lemma ce_get_agent k : commutes_end (get_agent k).
Proof. intros w. unfold get_agent. cbn. destruct (agents w !! k); done. Qed.
Lemma ce_put_agent k a : commutes_end (put_agent k a).
Proof. intros w. done. Qed.
Lemma ce_get_stake k : commutes_end (get_stake k).
Proof. intros w. unfold get_stake. cbn. destruct (stakes w !! k); done. Qed.
Lemma ce_put_stake k s : commutes_end (put_stake k s).
Proof. intros w. done. Qed.
Lemma ce_init_stake k : commutes_end (init_stake k).
Proof. intros w. unfold init_stake. cbn. destruct (stakes w !! k); done. Qed.
Lemma ce_get_token k : commutes_end (get_token k).
Proof. intros w. unfold get_token. cbn. destruct (tokens w !! k); done. Qed.
Lemma ce_put_token k t : commutes_end (put_token k t).
Proof. intros w. done. Qed.
(** A continuation that reads only the game's authority. *)
Lemma ce_get_game {A} (k : Game.t -> M A) :
  (forall g, k (Game.mk g.(Game.authority) false g.(Game.alliances) g.(Game.total_stake_accounts)) = k g) ->
  (forall g, commutes_end (k g)) -> commutes_end (bind get_game k).
Proof. intros Hk Hc w. unfold bind, get_game. cbn. rewrite Hk. apply Hc. Qed.
(** Rewriting one list field of the game keeps it ended. *)
Lemma ce_update_stakes (f : list Game.StakerStake -> result (list Game.StakerStake)) :
  commutes_end (g <- get_game ;; l <- lift_result (f g.(Game.total_stake_accounts)) ;;
                put_game (Game.set_total_stake_accounts l g)).
Proof. intros w. cbn. destruct (f _); done. Qed.
Lemma ce_update_alliances_opt (f : list Alliance.t -> option (list Alliance.t)) e :
  commutes_end (g <- get_game ;; l <- ok_or (f g.(Game.alliances)) e ;;
                put_game (Game.set_alliances l g)).
Proof. intros w. cbn. destruct (f _); done. Qed.
Lemma ce_token_transfer from to auth amount : commutes_end (token_transfer from to auth amount).
Proof.
  unfold token_transfer. apply ce_bind; [apply ce_get_token|intros s].
  apply ce_bind; [apply ce_get_token|intros d].
  repeat (destruct (_ : bool); [try apply ce_throw; try apply ce_ret|]);
    try apply ce_throw; try apply ce_ret.
  apply ce_bind; [apply ce_ok_or|intros nd].
  apply ce_bind; [apply ce_put_token|intros _]. apply ce_put_token.
Qed.

Lemma exec_commutes_end (m : M unit) : commutes_end m -> unaffected_by_end_game m.
Proof.
  intros H w. unfold exec. rewrite H. destruct (m w) as [[[]|e] w']; done.
Qed.

Ltac ce_step :=
  lazymatch goal with
  | |- commutes_end (add_stake_to_game _ _) => apply ce_update_stakes
  | |- commutes_end (remove_stake_from_game _ _) => apply ce_update_stakes
  | |- commutes_end (bind get_game (fun g => bind (ok_or _ _) _)) => apply ce_update_alliances_opt
  | |- commutes_end (bind get_game _) => apply ce_get_game; [intros ?; reflexivity|intros ?]
  | |- commutes_end (bind _ _) => apply ce_bind; [|intros ?]
  | |- commutes_end (ret _) => apply ce_ret
  | |- commutes_end (throw _) => apply ce_throw
  | |- commutes_end (require _ _) => apply ce_require
  | |- commutes_end (ok_or _ _) => apply ce_ok_or
  | |- commutes_end (lift_result _) => apply ce_lift_result
  | |- commutes_end (add_i64 _ _) => apply ce_add_i64
  | |- commutes_end (sub_i64 _ _) => apply ce_sub_i64
  | |- commutes_end (get_agent _) => apply ce_get_agent
  | |- commutes_end (put_agent _ _) => apply ce_put_agent
  | |- commutes_end (get_stake _) => apply ce_get_stake
  | |- commutes_end (put_stake _ _) => apply ce_put_stake
  | |- commutes_end (init_stake _) => apply ce_init_stake
  | |- commutes_end (get_token _) => apply ce_get_token
  | |- commutes_end (token_transfer _ _ _ _) => apply ce_token_transfer
  | |- commutes_end (if ?b then _ else _) => destruct b
  | |- commutes_end (match ?o with _ => _ end) => destruct o
  | |- commutes_end (read_token_amount _) => unfold read_token_amount
  | |- commutes_end (transfer_if_pos _ _ _ _) => unfold transfer_if_pos
  end.

(** [end_game] only clears [is_active], which no other instruction here reads: running any staking instruction, any battle start, [break_alliance] or [kill_agent] on the ended world gives the same result as on the original, with the game still ended. *)
Theorem end_game_keeps_other_instructions now a auth src vault dest gauth amt sh rvault rauth
    w1 w2 w3 w4 i t s atok wt :
  unaffected_by_end_game (initialize_stake now a auth src vault amt) /\
  unaffected_by_end_game (stake_tokens now a auth src vault amt) /\
  unaffected_by_end_game (unstake_tokens now a auth vault dest gauth sh) /\
  unaffected_by_end_game (claim_staking_rewards now a auth rvault dest rauth) /\
  unaffected_by_end_game (start_battle_simple now w1 w2) /\
  unaffected_by_end_game (start_battle_agent_vs_alliance now w1 w2 w3) /\
  unaffected_by_end_game (start_battle_alliance_vs_alliance now w1 w2 w3 w4) /\
  unaffected_by_end_game (break_alliance i t s) /\
  unaffected_by_end_game (kill_agent auth a atok wt).
Proof.
  repeat split; apply exec_commutes_end;
    [unfold initialize_stake|unfold stake_tokens|unfold unstake_tokens|unfold claim_staking_rewards
    |unfold start_battle_simple|unfold start_battle_agent_vs_alliance
    |unfold start_battle_alliance_vs_alliance|unfold break_alliance|unfold kill_agent];
    repeat ce_step.
  intros w. cbn. destruct (tokens w !! atok); done.
Qed.

(** [end_game] (game.rs 31-39): a signer other than the game authority is refused by [has_one], an inactive game is never ended, and on an active game the authority ends it, after which no second [end_game] succeeds. *)
Theorem end_game_once s s' w :
  (s <> w.(game).(Game.authority) -> fst (exec (end_game s) w) = Err ConstraintHasOne) /\
  (w.(game).(Game.is_active) = false -> fst (exec (end_game s) w) <> Ok tt) /\
  (s = w.(game).(Game.authority) -> w.(game).(Game.is_active) = true ->
     exec (end_game s) w = (Ok tt, game_ended w) /\
     fst (exec (end_game s') (game_ended w)) <> Ok tt).
Proof.
  unfold exec, end_game, bind, get_game, require, ret, throw, put_game, game_ended; cbn.
  split; [intros Hne; rewrite (proj2 (Z.eqb_neq _ _)) by congruence; done|].
  split; [intros ->; destruct (_ =? s); done|].
  intros -> ->. rewrite Z.eqb_refl. split; [done|]. cbn. destruct (_ =? s'); done.
Qed.

Lemma pair_matches_sym a i t : pair_matches a i t = pair_matches a t i.
Proof. unfold pair_matches. apply orb_comm. Qed.

Lemma pair_matches_same i t f b i' t' :
  pair_matches (Alliance.mk i t f b) i' t' = true ->
  forall a, pair_matches a i' t' = pair_matches a i t.
Proof.
  intros H a. unfold pair_matches in H; cbn in H.
  apply orb_true_iff in H as [H|H]; apply andb_true_iff in H as [H1 H2];
    apply Z.eqb_eq in H1, H2; subst; [done|apply pair_matches_sym].
Qed.

Lemma pair_count_cons a l i t :
  pair_count i t (a :: l) = ((if pair_matches a i t then 1 else 0) + pair_count i t l)%nat.
Proof. unfold pair_count. cbn. destruct (pair_matches a i t); done. Qed.

Lemma pair_count_same_fields a a' l i t :
  Alliance.agent1 a' = Alliance.agent1 a -> Alliance.agent2 a' = Alliance.agent2 a ->
  pair_count i t (a' :: l) = pair_count i t (a :: l).
Proof. intros H1 H2. rewrite !pair_count_cons. unfold pair_matches. rewrite H1, H2. done. Qed.

Lemma reactivate_or_push_counts i t now l l' :
  reactivate_or_push i t now l = Ok l' ->
  (forall i' t', pair_count i' t' l' = pair_count i' t' l) \/
  (pair_count i t l = 0%nat /\ l' = l ++ [Alliance.mk i t now true]).
Proof.
  revert l'. induction l as [|a r IH]; intros l' H; cbn in H.
  - injection H as <-. right. done.
  - destruct (pair_matches a i t) eqn:E.
    + destruct (negb _); [|discriminate]. injection H as <-. left. intros. by apply pair_count_same_fields.
    + destruct (reactivate_or_push i t now r) as [r'|] eqn:Er; [|discriminate].
      injection H as <-. destruct (IH r' eq_refl) as [H|[H ->]].
      * left. intros. rewrite !pair_count_cons, H. done.
      * right. rewrite pair_count_cons, E, H. done.
Qed.

Lemma pair_count_app l x i t :
  pair_count i t (l ++ [x]) = (pair_count i t l + if pair_matches x i t then 1 else 0)%nat.
Proof. unfold pair_count. rewrite List.filter_app, length_app. cbn. destruct (pair_matches x i t); done. Qed.

Lemma pair_count_congr l i t i' t' :
  (forall a, pair_matches a i' t' = pair_matches a i t) -> pair_count i' t' l = pair_count i t l.
Proof. intros H. induction l; [done|]. rewrite !pair_count_cons, H, IHl. done. Qed.

Lemma reactivate_or_push_active i t now l l' :
  reactivate_or_push i t now l = Ok l' ->
  existsb (fun a => Alliance.is_active a && pair_matches a i t) l' = true.
Proof.
  revert l'. induction l as [|a r IH]; intros l' H; cbn in H.
  - injection H as <-. cbn. unfold pair_matches. cbn. rewrite !Z.eqb_refl. done.
  - destruct (pair_matches a i t) eqn:E.
    + destruct (negb _); [|discriminate]. injection H as <-. cbn.
      unfold pair_matches in *; cbn. rewrite E. done.
    + destruct (reactivate_or_push i t now r) as [r'|] eqn:Er; [|discriminate].
      injection H as <-. cbn. rewrite (IH r' eq_refl), orb_true_r. done.
Qed.

Lemma reactivate_or_push_unique i t now l l' :
  alliances_unique l -> reactivate_or_push i t now l = Ok l' ->
  alliances_unique l' /\ pair_count i t l' = 1%nat /\
  existsb (fun a => Alliance.is_active a && pair_matches a i t) l' = true.
Proof.
  intros Hu H.
  pose proof (reactivate_or_push_active _ _ _ _ _ H) as Hact.
  assert (Hpos : (1 <= pair_count i t l')%nat).
  { apply existsb_exists in Hact as (a & Hin & Ha). apply andb_true_iff in Ha as [_ Ha].
    unfold pair_count. destruct (List.filter _ l') eqn:F; cbn; [|lia].
    assert (In a (List.filter (fun a => pair_matches a i t) l')) by (apply filter_In; done).
    rewrite F in *. done. }
  destruct (reactivate_or_push_counts _ _ _ _ _ H) as [Hc|[H0 ->]].
  - split; [intros i' t'; rewrite Hc; apply Hu|]. split; [|done].
    specialize (Hu i t). rewrite Hc in Hpos. rewrite Hc. lia.
  - split; [|split; [rewrite pair_count_app, H0; unfold pair_matches; cbn; rewrite !Z.eqb_refl; done|done]].
    intros i' t'. rewrite pair_count_app.
    destruct (pair_matches (Alliance.mk i t now true) i' t') eqn:E.
    + rewrite (pair_count_congr l i t i' t' (pair_matches_same _ _ _ _ _ _ E)), H0. lia.
    + specialize (Hu i' t'). lia.
Qed.

Lemma deactivate_alliance_counts i t l l' :
  deactivate_alliance i t l = Some l' -> forall i' t', pair_count i' t' l' = pair_count i' t' l.
Proof.
  revert l'. induction l as [|a r IH]; intros l' H i' t'; cbn in H; [done|].
  destruct (_ && _).
  - injection H as <-. by apply pair_count_same_fields.
  - destruct (deactivate_alliance i t r) as [r'|] eqn:Er; [|discriminate].
    injection H as <-. rewrite !pair_count_cons, (IH r' eq_refl). done.
Qed.

Lemma pair_count_zero_inactive l i t :
  pair_count i t l = 0%nat -> existsb (fun a => Alliance.is_active a && pair_matches a i t) l = false.
Proof.
  induction l as [|a r IH]; [done|]. rewrite pair_count_cons. cbn.
  destruct (pair_matches a i t); [lia|]. rewrite andb_false_r. apply IH.
Qed.

Lemma deactivate_alliance_unique i t l l' :
  alliances_unique l -> deactivate_alliance i t l = Some l' ->
  alliances_unique l' /\ length l' = length l /\
  existsb (fun a => Alliance.is_active a && pair_matches a i t) l' = false.
Proof.
  intros Hu H. split; [intros i' t'; rewrite (deactivate_alliance_counts _ _ _ _ H); apply Hu|].
  specialize (Hu i t). revert l' H Hu. induction l as [|a r IH]; intros l' H Hu; cbn in H; [done|].
  rewrite pair_count_cons in Hu.
  destruct (Alliance.is_active a && pair_matches a i t) eqn:E.
  - injection H as <-. apply andb_true_iff in E as [_ E]. rewrite E in Hu.
    cbn. split; [done|]. apply pair_count_zero_inactive. lia.
  - destruct (deactivate_alliance i t r) as [r'|] eqn:Er; [|discriminate].
    injection H as <-. destruct (IH r' eq_refl) as [Hl He]; [destruct (pair_matches a i t); lia|].
    cbn. rewrite Hl, E, He. done.
Qed.

Lemma wp_form_alliance_effect now i t s w :
  wp (form_alliance now i t s) (fun _ w' => exists ini tgt l,
    w.(agents) !! i = Some ini /\ w.(agents) !! t = Some tgt /\ i <> t /\
    Agent.authority ini = s /\
    Agent.alliance_with ini = None /\ Agent.alliance_with tgt = None /\
    reactivate_or_push i t now w.(game).(Game.alliances) = Ok l /\
    w'.(agents) = <[t := Agent.set_alliance (Some i) now tgt]>
                    (<[i := Agent.set_alliance (Some t) now ini]> w.(agents)) /\
    w'.(stakes) = w.(stakes) /\ w'.(tokens) = w.(tokens) /\
    w'.(game) = Game.set_alliances l w.(game)) w.
Proof.
  unfold form_alliance, validate_alliance. repeat wp_step.
  apply Z.eqb_eq in Heqb. apply Z.eqb_neq in Heqb0.
  apply orb_false_iff in Heqb1 as [H1 H2]. apply negb_false_iff in H1, H2.
  do 3 eexists. repeat split; eauto.
  - destruct (Agent.alliance_with ag); done.
  - destruct (Agent.alliance_with ag0); done.
Qed.

Lemma wp_break_alliance_effect i t s w :
  wp (break_alliance i t s) (fun _ w' => exists ini tgt l,
    w.(agents) !! i = Some ini /\ w.(agents) !! t = Some tgt /\
    Agent.authority ini = s /\ Agent.alliance_with ini = Some t /\
    deactivate_alliance i t w.(game).(Game.alliances) = Some l /\
    w'.(agents) = <[t := Agent.set_alliance None 0 tgt]>
                    (<[i := Agent.set_alliance None 0 ini]> w.(agents)) /\
    w'.(stakes) = w.(stakes) /\ w'.(tokens) = w.(tokens) /\
    w'.(game) = Game.set_alliances l w.(game)) w.
Proof.
  unfold break_alliance. repeat wp_step.
  apply Z.eqb_eq in Heqb, Heqb0. subst.
  do 3 eexists. repeat split; eauto.
Qed.

Lemma form_alliance_unique_aux now i t s w w' :
  alliances_unique w.(game).(Game.alliances) ->
  exec (form_alliance now i t s) w = (Ok tt, w') ->
  alliances_unique w'.(game).(Game.alliances) /\
  pair_count i t w'.(game).(Game.alliances) = 1%nat /\
  existsb (fun a => Alliance.is_active a && pair_matches a i t) w'.(game).(Game.alliances) = true.
Proof.
  intros Hu Hex. eapply exec_ok_wp in Hex; [|apply wp_form_alliance_effect].
  destruct Hex as (ini & tgt & l & _ & _ & _ & _ & _ & _ & Hl & _ & _ & _ & ->).
  exact (reactivate_or_push_unique _ _ _ _ _ Hu Hl).
Qed.

(** [form_alliance] (alliance.rs 8-56) keeps at most one alliance record per pair of agents, and afterwards the pair has exactly one record, which is active. *)
Theorem form_alliance_keeps_records_unique now i t s w w' :
  alliances_unique w.(game).(Game.alliances) ->
  exec (form_alliance now i t s) w = (Ok tt, w') ->
  alliances_unique w'.(game).(Game.alliances) /\
  pair_count i t w'.(game).(Game.alliances) = 1%nat /\
  existsb (fun a => Alliance.is_active a && pair_matches a i t) w'.(game).(Game.alliances) = true.
Proof. apply form_alliance_unique_aux. Qed.

(** [break_alliance] (alliance.rs 59-87) keeps at most one record per pair and the number of records, and leaves no active record for the pair. *)
Theorem break_alliance_keeps_records_unique i t s w w' :
  alliances_unique w.(game).(Game.alliances) ->
  exec (break_alliance i t s) w = (Ok tt, w') ->
  alliances_unique w'.(game).(Game.alliances) /\
  length w'.(game).(Game.alliances) = length w.(game).(Game.alliances) /\
  existsb (fun a => Alliance.is_active a && pair_matches a i t) w'.(game).(Game.alliances) = false.
Proof.
  intros Hu Hex. eapply exec_ok_wp in Hex; [|apply wp_break_alliance_effect].
  destruct Hex as (ini & tgt & l & _ & _ & _ & _ & Hl & _ & _ & _ & ->).
  exact (deactivate_alliance_unique _ _ _ _ Hu Hl).
Qed.

Lemma deactivate_alliance_length i t l l' :
  deactivate_alliance i t l = Some l' -> length l' = length l.
Proof.
  revert l'. induction l as [|a r IH]; intros l' H; cbn in H; [done|].
  destruct (_ && _); [injection H as <-; done|].
  destruct (deactivate_alliance i t r) as [r'|] eqn:Er; [|discriminate].
  injection H as <-. cbn. rewrite (IH r' eq_refl). done.
Qed.

Lemma deactivate_alliance_active i t l :
  existsb (fun a => Alliance.is_active a && pair_matches a i t) l = true ->
  exists l', deactivate_alliance i t l = Some l'.
Proof.
  induction l as [|a r IH]; cbn; [done|].
  destruct (Alliance.is_active a && pair_matches a i t); [eauto|].
  cbn. intros H. destruct (IH H) as [r' ->]. eauto.
Qed.

(** An alliance just formed can be broken by the same signer: both agents are unallied again, stakes and tokens are those before the alliance, the record is kept (deactivated) and, with unique records, none of the pair is active. *)
Theorem form_then_break_alliance now i t s w w1 :
  exec (form_alliance now i t s) w = (Ok tt, w1) ->
  exists w2, exec (break_alliance i t s) w1 = (Ok tt, w2) /\
    option_map Agent.alliance_with (w2.(agents) !! i) = Some None /\
    option_map Agent.alliance_with (w2.(agents) !! t) = Some None /\
    w2.(stakes) = w.(stakes) /\ w2.(tokens) = w.(tokens) /\
    length w2.(game).(Game.alliances) = length w1.(game).(Game.alliances) /\
    (alliances_unique w.(game).(Game.alliances) ->
     existsb (fun a => Alliance.is_active a && pair_matches a i t) w2.(game).(Game.alliances) = false).
Proof.
  intros Hex.
  assert (Hu1 : alliances_unique w.(game).(Game.alliances) -> alliances_unique w1.(game).(Game.alliances))
    by (intros Hu; exact (proj1 (form_alliance_unique_aux _ _ _ _ _ _ Hu Hex))).
  eapply exec_ok_wp in Hex; [|apply wp_form_alliance_effect].
  destruct Hex as (ini & tgt & l & Hi & Ht & Hne & Ha & _ & _ & Hl & Hag & Hst & Htk & Hg).
  pose proof (reactivate_or_push_active _ _ _ _ _ Hl) as Hact.
  destruct (deactivate_alliance_active _ _ _ Hact) as [l2 Hl2].
  apply (exec_twp _ (fun _ w2 =>
    option_map Agent.alliance_with (w2.(agents) !! i) = Some None /\
    option_map Agent.alliance_with (w2.(agents) !! t) = Some None /\
    w2.(stakes) = w.(stakes) /\ w2.(tokens) = w.(tokens) /\
    length w2.(game).(Game.alliances) = length w1.(game).(Game.alliances) /\
    (alliances_unique w.(game).(Game.alliances) ->
     existsb (fun a => Alliance.is_active a && pair_matches a i t) w2.(game).(Game.alliances) = false))).
  unfold break_alliance.
  apply twp_bind, (twp_get_agent _ (Agent.set_alliance (Some t) now ini)); [rewrite Hag; simplify_map_eq; done|].
  apply twp_bind. cbn. rewrite Ha, Z.eqb_refl. apply twp_ret.
  apply twp_bind, (twp_get_agent _ (Agent.set_alliance (Some i) now tgt)); [rewrite Hag; simplify_map_eq; done|].
  apply twp_bind. cbn. rewrite Z.eqb_refl. apply twp_ret.
  apply twp_bind, twp_put_agent. apply twp_bind, twp_put_agent. apply twp_bind, twp_get_game.
  apply twp_bind, (twp_ok_or _ l2); [cbn; rewrite Hg; exact Hl2|]. apply twp_put_game. cbn.
  split; [simplify_map_eq; done|]. split; [simplify_map_eq; done|].
  split; [done|]. split; [done|].
  rewrite Hg in *. cbn in *. split; [exact (deactivate_alliance_length _ _ _ _ Hl2)|].
  intros Hu. exact (proj2 (proj2 (deactivate_alliance_unique i t l l2
    (proj1 (reactivate_or_push_unique _ _ _ _ _ Hu Hl)) Hl2))).
Qed.

Lemma wp_resolve_battle_simple_effect now auth (win los : Party) pct w :
  win.(p_agent) <> los.(p_agent) ->
  wp (resolve_battle_simple now auth win los pct) (fun _ w' =>
    exists wa la st dt,
      w.(agents) !! win.(p_agent) = Some wa /\ w.(agents) !! los.(p_agent) = Some la /\
      w.(tokens) !! los.(p_token) = Some st /\ w.(tokens) !! win.(p_token) = Some dt /\
      w'.(agents) = <[los.(p_agent) := Agent.set_battle_start_time None (Agent.set_last_attack now la)]>
                    (<[win.(p_agent) := Agent.set_battle_start_time None (Agent.set_last_attack now wa)]>
                       w.(agents)) /\
      w'.(stakes) = w.(stakes) /\ w'.(game) = w.(game) /\
      let lost := TokenAccount.amount st * pct / 100 in
      lost <= TokenAccount.amount st /\
      (los.(p_token) <> win.(p_token) ->
       w'.(tokens) = <[win.(p_token) := TokenAccount.set_amount (TokenAccount.amount dt + lost) dt]>
                       (<[los.(p_token) := TokenAccount.set_amount (TokenAccount.amount st - lost) st]>
                          w.(tokens)))) w.
Proof.
  intros Hne. unfold resolve_battle_simple, validate_attack, set_attack, clear_battle.
  repeat (lazymatch goal with
          | |- wp (token_transfer _ _ _ _) _ _ => fail
          | _ => wp_step
          end; simplify_map_eq).
  apply wp_token_transfer_full; intros s d Hs Hd Ham How; cbn in Hs, Hd.
  rewrite Htk in Hs. injection Hs as <-. unfold checked_mul_u64 in Hv0.
  destruct (_ <=? U64_MAX); [|discriminate]. injection Hv0 as <-.
  assert (Hag' : forall X Y A B, <[p_agent los := X]> (<[p_agent win := Y]>
                   (<[p_agent los := A]> (<[p_agent win := B]> (agents w)))) =
                 <[p_agent los := X]> (<[p_agent win := Y]> (agents w))).
  { intros. apply map_eq; intros k.
    destruct (decide (k = p_agent los)), (decide (k = p_agent win)); subst; simplify_map_eq; done. }
  split.
  - intros Heq. exists ag0, ag, tk, d. cbn. rewrite Hag'. repeat split; try done; try lia.
  - intros Hne' Hov. exists ag0, ag, tk, d. cbn. rewrite Hag'. repeat split; try done; try lia.
Qed.


Lemma i64_in t c : I64_MIN <= t + c <= I64_MAX -> (I64_MIN <=? t + c) && (t + c <=? I64_MAX) = true.
Proof. intros. apply andb_true_iff. split; apply Z.leb_le; lia. Qed.





Lemma wp_start_battle_simple_effect now a b w :
  wp (start_battle_simple now a b) (fun _ w1 => exists wa lb,
    w.(agents) !! a = Some wa /\ w.(agents) !! b = Some lb /\
    Agent.is_alive wa = true /\ Agent.is_alive lb = true /\
    Agent.battle_start_time wa = None /\ Agent.battle_start_time lb = None /\
    w1.(agents) = <[b := Agent.set_battle_start_time (Some now) lb]>
                    (<[a := Agent.set_battle_start_time (Some now) wa]> w.(agents)) /\
    w1.(stakes) = w.(stakes) /\ w1.(tokens) = w.(tokens) /\ w1.(game) = w.(game)) w.
Proof.
  unfold start_battle_simple. repeat wp_step.
  do 2 eexists. repeat split; eauto.
  - destruct (Agent.battle_start_time ag); done.
  - destruct (Agent.battle_start_time ag0); done.
Qed.




Lemma lookup_insert_P (P : Agent.t -> Prop) (m : gmap Pubkey Agent.t) k v k' :
  P v -> (k' = k \/ exists ag, m !! k' = Some ag /\ P ag) ->
  exists ag, <[k := v]> m !! k' = Some ag /\ P ag.
Proof.
  intros Hv [->|(ag & Hag & Ht)]; [rewrite lookup_insert_eq; eauto|].
  destruct (decide (k = k')) as [->|Hne]; [rewrite lookup_insert_eq; eauto|].
  rewrite lookup_insert_ne by done. eauto.
Qed.

(** After [start_battle_simple t a b], no simple battle involving [a] or [b] and a live agent can start, and once [resolve_battle_simple] has settled it, the same two agents can battle again. *)
Theorem start_battle_simple_locks_agents t a b w w1 :
  exec (start_battle_simple t a b) w = (Ok tt, w1) ->
  (forall t' x c ag, (x = a \/ x = b) -> w1.(agents) !! c = Some ag -> Agent.is_alive ag = true ->
     fst (exec (start_battle_simple t' x c) w1) = Err (GameErr BattleAlreadyStarted) /\
     fst (exec (start_battle_simple t' c x) w1) = Err (GameErr BattleAlreadyStarted)) /\
  (forall now auth pct (win los : Party) w2 t', a <> b -> win.(p_agent) = a -> los.(p_agent) = b ->
     exec (resolve_battle_simple now auth win los pct) w1 = (Ok tt, w2) ->
     exists w3, exec (start_battle_simple t' a b) w2 = (Ok tt, w3)).
Proof.
  intros Hex. eapply exec_ok_wp in Hex; [|apply wp_start_battle_simple_effect].
  destruct Hex as (wa & lb & Ha & Hb & Hwa & Hlb & Hwa' & Hlb' & Hag & _ & _ & _).
  set (P := fun ag => Agent.is_alive ag = true /\ Agent.battle_start_time ag = Some t).
  assert (HP : forall x, x = a \/ x = b -> exists ag, w1.(agents) !! x = Some ag /\ P ag).
  { intros x Hx. rewrite Hag. apply lookup_insert_P; [split; [exact Hlb|reflexivity]|].
    destruct Hx as [->| ->]; [|left; done]. right.
    apply lookup_insert_P; [split; [exact Hwa|reflexivity]|left; done]. }
  split.
  - intros t' x c ag Hx Hc Hal. destruct (HP x Hx) as (ax & Hax & Hxal & Hxt).
    unfold exec, start_battle_simple, bind, get_agent, require, ret, throw.
    split; repeat (first [rewrite Hax | rewrite Hc | rewrite Hxal | rewrite Hal | rewrite Hxt]; cbn);
      [done|]. destruct (Agent.battle_start_time ag); done.
  - intros now auth pct win los w2 t' Hne Hw Hl Hres.
    eapply exec_ok_wp in Hres; [|apply wp_resolve_battle_simple_effect; congruence].
    destruct Hres as (wa1 & la1 & _ & _ & Hwa1 & Hla1 & _ & _ & Hag2 & _).
    rewrite Hw, Hl in *.
    destruct (HP a (or_introl eq_refl)) as (ax & Hax & Hxal & _).
    destruct (HP b (or_intror eq_refl)) as (bx & Hbx & Hbal & _).
    rewrite Hwa1 in Hax. injection Hax as <-. rewrite Hla1 in Hbx. injection Hbx as <-.
    destruct (exec_twp (start_battle_simple t' a b) (fun _ _ => True) w2) as (w3 & Hw3 & _); [|eauto].
    unfold start_battle_simple.
    apply twp_bind, twp_get_agent with (ag := Agent.set_battle_start_time None (Agent.set_last_attack now wa1));
      [rewrite Hag2; simplify_map_eq; done|].
    apply twp_bind, twp_get_agent with (ag := Agent.set_battle_start_time None (Agent.set_last_attack now la1));
      [rewrite Hag2; simplify_map_eq; done|].
    cbn [Agent.set_battle_start_time Agent.set_last_attack Agent.is_alive Agent.battle_start_time]. rewrite Hxal, Hbal. apply twp_bind, twp_require; [done|].
    apply twp_bind, twp_require; [done|]. apply twp_bind, twp_require; [done|].
    apply twp_bind, twp_require; [done|]. apply twp_bind, twp_put_agent, twp_put_agent. done.
Qed.

Lemma wp_claim_effect now a auth rv dest rauth w :
  wp (claim_staking_rewards now a auth rv dest rauth) (fun _ w' =>
    exists si ag r,
      w.(stakes) !! (a, auth) = Some si /\ w.(agents) !! a = Some ag /\
      StakeInfo.is_initialized si = true /\ StakeInfo.staker si = auth /\
      r = user_reward (now - StakeInfo.last_reward_timestamp si + 1) (StakeInfo.shares si)
                      (Agent.total_shares ag) /\
      w'.(stakes) = <[(a, auth) := StakeInfo.set_last_reward_timestamp now si]> w.(stakes) /\
      w'.(agents) = w.(agents) /\ w'.(game) = w.(game) /\
      (rv <> dest -> exists s d, w.(tokens) !! rv = Some s /\ w.(tokens) !! dest = Some d /\
         r <= TokenAccount.amount s /\
         w'.(tokens) = <[dest := TokenAccount.set_amount (TokenAccount.amount d + r) d]>
                        (<[rv := TokenAccount.set_amount (TokenAccount.amount s - r) s]> w.(tokens)))) w.
Proof.
  unfold claim_staking_rewards, sub_i64.
  repeat (lazymatch goal with
          | |- wp (token_transfer _ _ _ _) _ _ => fail
          | _ => wp_step
          end; simplify_map_eq).
  apply wp_token_transfer_full; intros s0 d0 Hs Hd Ham How; cbn in Hs, Hd.
  rewrite Htk in Hs. injection Hs as <-. split.
  - intros Heq. repeat wp_step. simplify_map_eq. do 3 eexists. repeat split; eauto.
    + apply Z.eqb_eq; done.
    + intros Hne; done.
  - intros Hne Hov. repeat wp_step. simplify_map_eq. do 3 eexists. repeat split; eauto.
    + apply Z.eqb_eq; done.
    + intros _. exists tk, d0. repeat split; eauto.
Qed.

Lemma claim_effect_aux now a auth rv dest rauth w w' :
  rv <> dest ->
  exec (claim_staking_rewards now a auth rv dest rauth) w = (Ok tt, w') ->
  exists si ag s d,
    w.(stakes) !! (a, auth) = Some si /\ w.(agents) !! a = Some ag /\
    w.(tokens) !! rv = Some s /\ w.(tokens) !! dest = Some d /\
    let r := user_reward (now - StakeInfo.last_reward_timestamp si + 1) (StakeInfo.shares si)
                         (Agent.total_shares ag) in
    r <= TokenAccount.amount s /\
    w'.(tokens) = <[dest := TokenAccount.set_amount (TokenAccount.amount d + r) d]>
                   (<[rv := TokenAccount.set_amount (TokenAccount.amount s - r) s]> w.(tokens)) /\
    w'.(stakes) = <[(a, auth) := StakeInfo.set_last_reward_timestamp now si]> w.(stakes) /\
    w'.(agents) = w.(agents) /\ w'.(game) = w.(game).
Proof.
  intros Hne Hex. eapply exec_ok_wp in Hex; [|apply wp_claim_effect].
  destruct Hex as (si & ag & r & Hsi & Hag & _ & _ & -> & Hst & Hagt & Hg & Htok).
  destruct (Htok Hne) as (s & d & Hs & Hd & Hr & Ht).
  exists si, ag, s, d. repeat split; done.
Qed.

(** [claim_staking_rewards] (token.rs 267-331), on success: the reward computed from the time since the last claim and the share proportion is at most the rewards vault's balance, moves from the vault to the destination, the stake's [last_reward_timestamp] becomes [now], and agents and game are unchanged. *)
Theorem claim_staking_rewards_effect now a auth rv dest rauth w w' :
  rv <> dest ->
  exec (claim_staking_rewards now a auth rv dest rauth) w = (Ok tt, w') ->
  exists si ag s d,
    w.(stakes) !! (a, auth) = Some si /\ w.(agents) !! a = Some ag /\
    w.(tokens) !! rv = Some s /\ w.(tokens) !! dest = Some d /\
    let r := user_reward (now - StakeInfo.last_reward_timestamp si + 1) (StakeInfo.shares si)
                         (Agent.total_shares ag) in
    r <= TokenAccount.amount s /\
    w'.(tokens) = <[dest := TokenAccount.set_amount (TokenAccount.amount d + r) d]>
                   (<[rv := TokenAccount.set_amount (TokenAccount.amount s - r) s]> w.(tokens)) /\
    w'.(stakes) = <[(a, auth) := StakeInfo.set_last_reward_timestamp now si]> w.(stakes) /\
    w'.(agents) = w.(agents) /\ w'.(game) = w.(game).
Proof. apply claim_effect_aux. Qed.

Lemma wp_initialize_stake_timestamp now a auth src vault amt w :
  wp (initialize_stake now a auth src vault amt) (fun _ w1 =>
    exists si, w1.(stakes) !! (a, auth) = Some si /\ StakeInfo.last_reward_timestamp si = 0) w.
Proof.
  unfold initialize_stake. repeat (wp_step; simplify_map_eq).
  rewrite ?Hstakes in *. simplify_map_eq.
  eexists. split; [done|reflexivity].
Qed.

(** [initialize_stake] leaves [last_reward_timestamp] at 0, so the first claim after it pays the reward for [now + 1] seconds, however recent the deposit. *)
Theorem first_claim_counts_from_time_zero t0 now a auth src vault amt rv dest rauth w w1 w2 :
  rv <> dest ->
  exec (initialize_stake t0 a auth src vault amt) w = (Ok tt, w1) ->
  exec (claim_staking_rewards now a auth rv dest rauth) w1 = (Ok tt, w2) ->
  exists ag1, w1.(agents) !! a = Some ag1 /\
    amount_at dest w2.(tokens) =
      amount_at dest w1.(tokens) + user_reward (now + 1) (shares_at (a, auth) w1.(stakes)) (Agent.total_shares ag1).
Proof.
  intros Hne H1 H2.
  eapply exec_ok_wp in H1; [|apply wp_initialize_stake_timestamp].
  destruct H1 as (si & Hsi & Hts).
  apply claim_effect_aux in H2; [|done].
  destruct H2 as (si' & ag & s & d & Hsi' & Hag & Hs & Hd & _ & Ht & _).
  rewrite Hsi in Hsi'. injection Hsi' as <-.
  exists ag. split; [done|]. unfold amount_at. rewrite Ht, lookup_insert_eq, Hd, Hts.
  unfold shares_at. rewrite Hsi. cbn. do 2 f_equal. lia.
Qed.

Lemma wp_stake_tokens_full now a auth src vault A w :
  wp (stake_tokens now a auth src vault A) (fun _ w' => exists ag si s v l,
    w.(agents) !! a = Some ag /\ w.(stakes) !! (a, auth) = Some si /\
    w.(tokens) !! src = Some s /\ w.(tokens) !! vault = Some v /\
    0 < A /\ StakeInfo.is_initialized si = true /\
    (src <> vault -> w'.(tokens) = <[vault := TokenAccount.set_amount (TokenAccount.amount v + A) v]>
                      (<[src := TokenAccount.set_amount (TokenAccount.amount s - A) s]> w.(tokens))) /\
    (exists ts, w'.(agents) = <[a := Agent.set_staked_balance (Agent.staked_balance ag + A)
                                      (Agent.set_total_shares ts ag)]> w.(agents)) /\
    (exists sh, w'.(stakes) = <[(a, auth) := StakeInfo.set_cooldown_ends_at (now + ONE_HOUR)
                                   (StakeInfo.set_shares sh (StakeInfo.set_amount (StakeInfo.amount si + A) si))]>
                               w.(stakes)) /\
    add_stake_entries auth A w.(game).(Game.total_stake_accounts) = Ok l /\
    w'.(game) = Game.set_total_stake_accounts l w.(game)) w.
Proof.
  unfold stake_tokens.
  repeat (lazymatch goal with
          | |- wp (token_transfer _ _ _ _) _ _ => fail
          | _ => wp_step
          end; simplify_map_eq).
  apply wp_token_transfer_full; intros s d Hs Hd Ham How; cbn in Hs, Hd.
  apply Z.ltb_lt in Hreq.
  split; [intros Heq | intros Hne Hov];
  repeat (lazymatch goal with
          | |- wp (add_stake_to_game _ _) _ _ =>
              apply wp_add_stake_to_game_full; intros ?l ?Hl
          | _ => wp_step
          end; simplify_map_eq);
  unfold checked_add_u128, checked_add_u64 in *; repeat case_match; simplify_eq;
  do 5 eexists; repeat split; try reflexivity; try done;
  try (intros Hc; exfalso; apply Hc; reflexivity);
  eexists; rewrite insert_insert_eq; reflexivity.
Qed.

Lemma add_stake_entries_stake_of st amt l l' :
  add_stake_entries st amt l = Ok l' ->
  stake_of st l' = Some (default 0 (stake_of st l) + amt) /\
  (forall st', st' <> st -> stake_of st' l' = stake_of st' l).
Proof.
  revert l'. induction l as [|e r IH]; intros l' H; cbn in *.
  - injection H as <-. cbn. rewrite Z.eqb_refl. split; [f_equal; lia|].
    intros st' Hne. rewrite (proj2 (Z.eqb_neq st st')) by congruence. done.
  - destruct (Game.staker e =? st) eqn:E.
    + unfold checked_add_u64 in H. destruct (_ <=? U64_MAX); [|discriminate].
      injection H as <-. cbn. rewrite E. split; [done|].
      intros st' Hne. apply Z.eqb_eq in E.
      rewrite (proj2 (Z.eqb_neq (Game.staker e) st')) by congruence. done.
    + destruct (add_stake_entries st amt r) as [r'|] eqn:Er; [|discriminate].
      injection H as <-. cbn. rewrite E. destruct (IH r' eq_refl) as [H1 H2].
      split; [done|]. intros st' Hne. rewrite H2 by done. done.
Qed.

(** [stake_tokens] (token.rs 115-178), on success: the stake's amount and the agent's staked balance grow by the deposit, the cooldown restarts at [now + ONE_HOUR], the last reward time and staker are kept, the deposit moves from the source to the vault and the game's entry for the staker grows by it. *)
Theorem stake_tokens_effect now a auth src vault A w w' :
  src <> vault ->
  exec (stake_tokens now a auth src vault A) w = (Ok tt, w') ->
  exists si si' ag ag',
    w.(stakes) !! (a, auth) = Some si /\ w'.(stakes) = <[(a, auth) := si']> w.(stakes) /\
    StakeInfo.amount si' = StakeInfo.amount si + A /\
    StakeInfo.cooldown_ends_at si' = now + ONE_HOUR /\
    StakeInfo.last_reward_timestamp si' = StakeInfo.last_reward_timestamp si /\
    StakeInfo.staker si' = StakeInfo.staker si /\
    w.(agents) !! a = Some ag /\ w'.(agents) = <[a := ag']> w.(agents) /\
    Agent.staked_balance ag' = Agent.staked_balance ag + A /\
    amount_at src w'.(tokens) = amount_at src w.(tokens) - A /\
    amount_at vault w'.(tokens) = amount_at vault w.(tokens) + A /\
    (forall k, k <> src -> k <> vault -> w'.(tokens) !! k = w.(tokens) !! k) /\
    stake_of auth w'.(game).(Game.total_stake_accounts) =
      Some (default 0 (stake_of auth w.(game).(Game.total_stake_accounts)) + A).
Proof.
  intros Hne Hex. eapply exec_ok_wp in Hex; [|apply wp_stake_tokens_full].
  destruct Hex as (ag & si & s & v & l & Hag & Hsi & Hs & Hv & _ & _ & Ht & [ts Ha] & [sh Hst] & Hl & Hg).
  eexists si, _, ag, _. split; [done|]. split; [exact Hst|]. cbn.
  split; [done|]. split; [done|]. split; [done|]. split; [done|].
  split; [done|]. split; [exact Ha|]. split; [done|].
  rewrite (Ht Hne). unfold amount_at. rewrite Hs, Hv.
  split; [rewrite lookup_insert_ne, lookup_insert_eq by done; done|].
  split; [rewrite lookup_insert_eq; done|].
  split; [intros k Hk1 Hk2; rewrite !lookup_insert_ne by done; done|].
  rewrite Hg. exact (proj1 (add_stake_entries_stake_of _ _ _ _ Hl)).
Qed.

(** [initialize_stake] creates the stake account with [init]: a second initialization for the same agent and staker fails with [AccountAlreadyInUse]. *)
Theorem initialize_stake_only_once now now' a auth src vault amt src' vault' amt' w w1 :
  exec (initialize_stake now a auth src vault amt) w = (Ok tt, w1) ->
  fst (exec (initialize_stake now' a auth src' vault' amt') w1) = Err AccountAlreadyInUse.
Proof.
  intros Hex. eapply exec_ok_wp in Hex; [|apply wp_initialize_stake_effect].
  destruct Hex as (ag & ag' & si' & d & Hag & Ha & Hs & _).
  unfold exec, initialize_stake, bind, get_agent, init_stake.
  rewrite Ha, lookup_insert_eq, Hs, lookup_insert_eq. done.
Qed.

(** [unstake_tokens] (token.rs 183-261): when the vault value of the redeemed shares exceeds the stake's recorded amount, the instruction fails with [NotEnoughTokens]. *)
Theorem unstake_tokens_capped_by_deposit now a auth vault dest gauth sh w si ag v :
  w.(stakes) !! (a, auth) = Some si -> StakeInfo.is_initialized si = true ->
  StakeInfo.staker si = auth -> 0 < sh <= StakeInfo.shares si ->
  w.(agents) !! a = Some ag -> 0 < Agent.total_shares ag -> sh <= Agent.total_shares ag ->
  w.(tokens) !! vault = Some v -> 0 <= TokenAccount.amount v <= U64_MAX ->
  sh * TokenAccount.amount v <= U128_MAX ->
  StakeInfo.amount si < sh * TokenAccount.amount v / Agent.total_shares ag ->
  fst (exec (unstake_tokens now a auth vault dest gauth sh) w) = Err (GameErr NotEnoughTokens).
Proof.
  intros Hsi Hin Hst Hsh Hag HT HshT Hv HV Hmul Hlt.
  set (V := TokenAccount.amount v) in *. set (T := Agent.total_shares ag) in *.
  set (wd := sh * V / T) in *.
  assert (HwdV : wd <= V).
  { unfold wd. apply Z.div_le_upper_bound; [lia|]. nia. }
  assert (Hwd0 : 0 <= wd) by (unfold wd; apply Z.div_pos; lia).
  assert (Hu : as_u64 wd = wd) by (unfold as_u64; apply Z.mod_small; unfold U64_MAX in *; lia).
  assert (E1 : checked_mul_u128 sh V = Some (sh * V)) by (unfold checked_mul_u128; leb_true; done).
  assert (E2 : checked_div (sh * V) T = Some wd) by (unfold checked_div; rewrite (proj2 (Z.eqb_neq T 0)) by lia; done).
  assert (E3 : checked_sub_u128 T sh = Some (T - sh)) by (unfold checked_sub_u128; leb_true; done).
  assert (E4 : checked_sub_u64 (StakeInfo.amount si) wd = None)
    by (unfold checked_sub_u64; rewrite (proj2 (Z.leb_gt _ _)) by lia; done).
  unfold exec, unstake_tokens, read_token_amount, bind, get_agent, get_stake, require, get_token,
    ok_or, put_agent, ret, throw.
  assert (E5 : (0 <? sh) = true) by (apply Z.ltb_lt; lia).
  assert (E6 : (sh <=? StakeInfo.shares si) = true) by (apply Z.leb_le; lia).
  assert (E7 : (StakeInfo.staker si =? auth) = true) by (apply Z.eqb_eq; done).
  unfold wd, V, T in *.
  repeat (first [rewrite Hag | rewrite Hsi | rewrite Hin | rewrite Hv | rewrite E5 | rewrite E6 | rewrite E7
                | rewrite E1 | rewrite E2 | rewrite E3 | rewrite lookup_insert_eq];
          cbn -[checked_mul_u128 checked_div checked_sub_u128 checked_sub_u64]).
  destruct (checked_sub_u128 (Agent.staked_balance ag) _); [|done].
  cbn -[checked_sub_u128 checked_sub_u64]. rewrite Hsi. cbn -[checked_sub_u128 checked_sub_u64].
  rewrite Hu, E4. done.
Qed.

Lemma wp_unstake_tokens_full now a auth vault dest gauth sh w :
  wp (unstake_tokens now a auth vault dest gauth sh) (fun _ w' => exists si ag v,
    w.(stakes) !! (a, auth) = Some si /\ w.(agents) !! a = Some ag /\ w.(tokens) !! vault = Some v /\
    let wd := sh * TokenAccount.amount v / Agent.total_shares ag in
    0 < sh /\ sh <= Agent.total_shares ag /\ Agent.total_shares ag <> 0 /\
    as_u64 wd <= StakeInfo.amount si /\ wd <= Agent.staked_balance ag /\
    w'.(stakes) = <[(a, auth) := StakeInfo.set_shares (StakeInfo.shares si - sh)
                                  (StakeInfo.set_amount (StakeInfo.amount si - as_u64 wd) si)]> w.(stakes) /\
    (vault <> dest -> exists d, w.(tokens) !! dest = Some d /\
       w'.(tokens) = <[dest := TokenAccount.set_amount (TokenAccount.amount d + as_u64 wd) d]>
                      (<[vault := TokenAccount.set_amount (TokenAccount.amount v - as_u64 wd) v]> w.(tokens)))) w.
Proof.
  unfold unstake_tokens.
  repeat (lazymatch goal with
          | |- wp (token_transfer _ _ _ _) _ _ => fail
          | _ => wp_step
          end; simplify_map_eq).
  apply wp_token_transfer_full; intros s d Hs Hd Ham How; cbn in Hs, Hd.
  rewrite Htk in Hs. injection Hs as <-.
  unfold checked_mul_u128, checked_div, checked_sub_u128, checked_sub_u64 in *.
  repeat case_match; simplify_eq.
  repeat match goal with H : (_ <? _) = true |- _ => apply Z.ltb_lt in H end.
  repeat match goal with H : (_ <=? _) = true |- _ => apply Z.leb_le in H end.
  repeat match goal with H : (_ =? _) = false |- _ => apply Z.eqb_neq in H end.
  cbn [stakes tokens set_game set_stakes set_agents set_tokens agents game].
  split.
  - intros Heq. exists si, ag, tk. repeat split; try done; try lia.
  - intros Hne Hov. exists si, ag, tk. repeat split; try done; try lia.
    intros _. exists d. done.
Qed.

(** [unstake_tokens], on success, pays [shares * vault / total_shares], which is at most the stake's amount and the vault's balance; the stake loses that amount and the shares, the vault pays it and the destination receives it. *)
Theorem unstake_tokens_pays_at_most_deposit now a auth vault dest gauth sh w w' si ag v :
  w.(stakes) !! (a, auth) = Some si -> w.(agents) !! a = Some ag ->
  w.(tokens) !! vault = Some v -> 0 <= TokenAccount.amount v <= U64_MAX -> vault <> dest ->
  exec (unstake_tokens now a auth vault dest gauth sh) w = (Ok tt, w') ->
  let wd := sh * TokenAccount.amount v / Agent.total_shares ag in
  0 <= wd <= StakeInfo.amount si /\ wd <= TokenAccount.amount v /\
  (exists si', w'.(stakes) !! (a, auth) = Some si' /\
     StakeInfo.amount si' = StakeInfo.amount si - wd /\ StakeInfo.shares si' = StakeInfo.shares si - sh) /\
  amount_at vault w'.(tokens) = TokenAccount.amount v - wd /\
  amount_at dest w'.(tokens) = amount_at dest w.(tokens) + wd.
Proof.
  intros Hsi Hag Hv HV Hne Hex wd.
  eapply exec_ok_wp in Hex; [|apply wp_unstake_tokens_full].
  destruct Hex as (si1 & ag1 & v1 & Hsi1 & Hag1 & Hv1 & Hrest).
  rewrite Hsi in Hsi1; injection Hsi1 as <-. rewrite Hag in Hag1; injection Hag1 as <-.
  rewrite Hv in Hv1; injection Hv1 as <-.
  destruct Hrest as (Hsh & HshT & HT & Ham & Hsb & Hst & Htok). fold wd in Ham, Hst, Htok.
  assert (HwdV : 0 <= wd <= TokenAccount.amount v).
  { unfold wd. split; [apply Z.div_pos; lia|]. apply Z.div_le_upper_bound; [lia|]. nia. }
  assert (Hu : as_u64 wd = wd) by (unfold as_u64; apply Z.mod_small; unfold U64_MAX in *; lia).
  rewrite Hu in *. destruct (Htok Hne) as (d & Hd & Ht).
  split; [lia|]. split; [lia|].
  split; [eexists; rewrite Hst, lookup_insert_eq; split; [done|]; cbn; split; done|].
  unfold amount_at. rewrite Ht, Hd, lookup_insert_eq, lookup_insert_ne, lookup_insert_eq by done.
  cbn. split; done.
Qed.

Lemma wp_init_agent k Q w :
  (w.(agents) !! k = None -> Q tt (set_agents (<[k := agent_default]> w.(agents)) w)) ->
  wp (init_agent k) Q w.
Proof. unfold wp, init_agent. destruct (agents w !! k); [done|auto]. Qed.

Lemma exec_ret_ok_wp {A} (m : M A) w a w' (Q : A -> World -> Prop) :
  exec_ret m w = (Ok a, w') -> wp m Q w -> Q a w'.
Proof. unfold exec_ret, wp. destruct (m w) as [[b|e] w'']; congruence. Qed.

Lemma wp_register_agent_effect k s x y n reg w :
  wp (register_agent k s x y n reg) (fun reg' w' =>
    w.(agents) !! k = None /\ s = w.(game).(Game.authority) /\ w.(game).(Game.is_active) = true /\
    existsb (fun a => AgentInfo.key a =? k) reg = false /\
    w'.(agents) = <[k := Agent.mk s x y true 0 0 None None 0 0 0 None 0 0 0]> w.(agents) /\
    w'.(stakes) = w.(stakes) /\ w'.(tokens) = w.(tokens) /\ w'.(game) = w.(game) /\
    reg' = reg ++ [AgentInfo.mk k n]) w.
Proof.
  unfold register_agent. apply wp_bind, wp_init_agent. intros Hk. cbn.
  repeat (wp_step; simplify_map_eq).
  apply negb_true_iff in Hreq2. apply Z.eqb_eq in Hreq0.
  repeat split; try done. rewrite insert_insert_eq. done.
Qed.

(** [register_agent] (agent.rs 7-65), on success: the account was new, the signer is the game authority and the game active; the agent is created alive at [(x, y)] with all counters zero and not in battle, nothing else changes, and the registry gains one entry, staying duplicate-free. *)
Theorem register_agent_effect k s x y n reg reg' w w' :
  exec_ret (register_agent k s x y n reg) w = (Ok reg', w') ->
  w.(agents) !! k = None /\ s = w.(game).(Game.authority) /\ w.(game).(Game.is_active) = true /\
  w'.(agents) = <[k := Agent.mk s x y true 0 0 None None 0 0 0 None 0 0 0]> w.(agents) /\
  w'.(stakes) = w.(stakes) /\ w'.(tokens) = w.(tokens) /\ w'.(game) = w.(game) /\
  reg' = reg ++ [AgentInfo.mk k n] /\
  (NoDup (map AgentInfo.key reg) -> NoDup (map AgentInfo.key reg')).
Proof.
  intros Hex. eapply exec_ret_ok_wp in Hex; [|apply wp_register_agent_effect].
  destruct Hex as (Hk & Hs & Ha & Hex & Hag & Hst & Ht & Hg & ->).
  repeat split; try done.
  intros Hnd. rewrite map_app. apply NoDup_app. split; [done|]. split; [|apply NoDup_singleton].
  intros z Hz Hin. apply list_elem_of_singleton in Hin. cbn in Hin. subst z.
  apply list_elem_of_In, in_map_iff in Hz as (e & He & Hel).
  assert (existsb (fun a => AgentInfo.key a =? k) reg = true) as Ht'
    by (apply existsb_exists; exists e; split; [done|]; apply Z.eqb_eq; done).
  congruence.
Qed.

(** [register_agent] never fails with [GameNotActive]: an existing account is refused by [init] ([AccountAlreadyInUse]) and an inactive game by the [ReentrancyGuard] constraint, both before the handler's own check. *)
Theorem register_agent_errors k s x y n reg w :
  fst (exec_ret (register_agent k s x y n reg) w) <> Err (GameErr GameNotActive) /\
  (w.(agents) !! k <> None -> fst (exec_ret (register_agent k s x y n reg) w) = Err AccountAlreadyInUse) /\
  (w.(agents) !! k = None -> w.(game).(Game.is_active) = false ->
     fst (exec_ret (register_agent k s x y n reg) w) = Err (GameErr ReentrancyGuard)).
Proof.
  unfold exec_ret, register_agent, init_agent, bind, get_game, require, get_agent, put_agent, ret, throw.
  destruct (agents w !! k) eqn:Hk; cbn.
  - split; [done|]. split; [done|]. done.
  - destruct (Game.is_active (game w)) eqn:Ha; cbn.
    + split; [|split; [done|done]].
      destruct (s =? _); cbn; [|done]. destruct (existsb _ reg); cbn; [done|].
      rewrite lookup_insert_eq. done.
    + split; [done|]. split; done.
Qed.

(** Two agents just registered can start a simple battle with each other. *)
Theorem registered_agents_can_battle k1 k2 s x1 y1 x2 y2 n1 n2 reg reg1 reg2 w w1 w2 now :
  k1 <> k2 ->
  exec_ret (register_agent k1 s x1 y1 n1 reg) w = (Ok reg1, w1) ->
  exec_ret (register_agent k2 s x2 y2 n2 reg1) w1 = (Ok reg2, w2) ->
  exists w3, exec (start_battle_simple now k1 k2) w2 = (Ok tt, w3) /\
    option_map Agent.battle_start_time (w3.(agents) !! k1) = Some (Some now) /\
    option_map Agent.battle_start_time (w3.(agents) !! k2) = Some (Some now).
Proof.
  intros Hne H1 H2.
  eapply exec_ret_ok_wp in H1; [|apply wp_register_agent_effect].
  eapply exec_ret_ok_wp in H2; [|apply wp_register_agent_effect].
  destruct H1 as (_ & _ & _ & _ & Ha1 & _). destruct H2 as (_ & _ & _ & _ & Ha2 & _).
  set (A1 := Agent.mk s x1 y1 true 0 0 None None 0 0 0 None 0 0 0) in *.
  set (A2 := Agent.mk s x2 y2 true 0 0 None None 0 0 0 None 0 0 0) in *.
  apply (exec_twp _ (fun _ w3 =>
    option_map Agent.battle_start_time (w3.(agents) !! k1) = Some (Some now) /\
    option_map Agent.battle_start_time (w3.(agents) !! k2) = Some (Some now))).
  unfold start_battle_simple.
  apply twp_bind, (twp_get_agent _ A1); [rewrite Ha2, Ha1; simplify_map_eq; done|].
  apply twp_bind, (twp_get_agent _ A2); [rewrite Ha2; simplify_map_eq; done|].
  do 4 (apply twp_bind, twp_require; [done|]).
  apply twp_bind, twp_put_agent, twp_put_agent. cbn. simplify_map_eq. done.
Qed.

(** [kill_agent] (agent.rs 69-102) does not check that the agent is alive: killing a dead agent gives the same result, and on success the same world, as killing it alive. *)
Theorem kill_agent_ignores_liveness authority a atok wt w ag b :
  w.(agents) !! a = Some ag ->
  let K := kill_agent authority a atok wt in
  let wb := set_agents (<[a := Agent.set_is_alive b ag]> w.(agents)) w in
  let wl := set_agents (<[a := Agent.set_is_alive true ag]> w.(agents)) w in
  fst (exec K wb) = fst (exec K wl) /\
  (fst (exec K wl) = Ok tt -> snd (exec K wb) = snd (exec K wl)).
Proof.
  intros Hag K wb wl. subst K wb wl.
  assert (Hw : forall c, set_agents (<[a := Agent.set_is_alive false (Agent.set_is_alive c ag)]>
                   (<[a := Agent.set_is_alive c ag]> w.(agents)))
                 (set_agents (<[a := Agent.set_is_alive c ag]> w.(agents)) w)
               = set_agents (<[a := Agent.set_is_alive false ag]> w.(agents)) w).
  { intros c. rewrite insert_insert_eq. done. }
  unfold exec, kill_agent, bind, get_agent, get_game, require, ret, throw, put_agent.
  cbn [agents set_agents]. rewrite !lookup_insert_eq. cbn.
  destruct (Agent.authority ag =? authority); cbn; [|done].
  destruct (authority =? Game.authority (game w)); cbn; [|done].
  rewrite !Hw. cbn [set_agents tokens].
  destruct (tokens w !! atok); cbn; [|done].
  match goal with |- context [if ?c then _ else _] => destruct c end; [|done].
  match goal with |- context [token_transfer ?x ?y ?z ?v ?W] => destruct (token_transfer x y z v W) as [[]] end; done.
Qed.

Lemma reset_battle_fields_idem a : reset_battle_fields (reset_battle_fields a) = reset_battle_fields a.
Proof. reflexivity. Qed.






(* ------------------------------------------------------------------ *)
(** ** Instances of the properties above *)

Lemma alliances_unique_nil : alliances_unique [].
Proof. intros i t. cbn. lia. Qed.

Lemma alliances_unique_single a : alliances_unique [a].
Proof. intros i t. unfold pair_count. cbn. destruct (pair_matches a i t); cbn; lia. Qed.

Ltac lit_arith :=
  unfold U64_MAX, U128_MAX, I64_MIN, I64_MAX, SIMPLE_BATTLE_COOLDOWN, stake_A, agent_A in *; cbn;
  first [lia | apply Z.ltb_lt; vm_compute; reflexivity | apply Z.leb_le; vm_compute; reflexivity].

(** Staker 10 adds 5 to its entry of 3. *)
Lemma add_stake_entries_spec_witness :
  NoDup (map Game.staker [Game.mkStakerStake 11 4; Game.mkStakerStake 10 8]) /\
  stake_of 10 [Game.mkStakerStake 11 4; Game.mkStakerStake 10 8] =
    Some (default 0 (stake_of 10 [Game.mkStakerStake 11 4; Game.mkStakerStake 10 3]) + 5) /\
  (forall st', st' <> 10 -> stake_of st' [Game.mkStakerStake 11 4; Game.mkStakerStake 10 8] =
                            stake_of st' [Game.mkStakerStake 11 4; Game.mkStakerStake 10 3]).
Proof.
  exact (add_stake_entries_spec 10 5 [Game.mkStakerStake 11 4; Game.mkStakerStake 10 3]
           [Game.mkStakerStake 11 4; Game.mkStakerStake 10 8]
           ltac:(apply (bool_decide_unpack _); vm_compute; reflexivity)
           ltac:(vm_compute; reflexivity)).
Defined.

(** Staker 10 withdraws 5 of its 8. *)
Lemma remove_stake_entries_spec_witness :
  exists l', remove_stake_entries 10 5 [Game.mkStakerStake 11 4; Game.mkStakerStake 10 8] = Ok l' /\
    map Game.staker l' = [11; 10] /\ stake_of 10 l' = Some 3 /\
    (forall st', st' <> 10 -> stake_of st' l' = stake_of st'
                    [Game.mkStakerStake 11 4; Game.mkStakerStake 10 8]).
Proof.
  exact (proj2 (proj2 (remove_stake_entries_spec 10 5
           [Game.mkStakerStake 11 4; Game.mkStakerStake 10 8])) 8
           ltac:(reflexivity) ltac:(lia)).
Defined.

(** The authority ends the game of [world_empty]. *)
Lemma end_game_once_witness :
  exec (end_game 99) world_empty = (Ok tt, game_ended world_empty) /\
  fst (exec (end_game 99) (game_ended world_empty)) <> Ok tt.
Proof.
  exact (proj2 (proj2 (end_game_once 99 99 world_empty)) ltac:(reflexivity) ltac:(reflexivity)).
Defined.

(** Agents 2 and 3 of [world_battle] ally at time 20000. *)
Lemma form_alliance_keeps_records_unique_witness :
  let w' := snd (exec (form_alliance 20000 2 3 99) world_battle) in
  alliances_unique w'.(game).(Game.alliances) /\
  pair_count 2 3 w'.(game).(Game.alliances) = 1%nat /\
  existsb (fun a => Alliance.is_active a && pair_matches a 2 3) w'.(game).(Game.alliances) = true.
Proof.
  exact (form_alliance_keeps_records_unique 20000 2 3 99 world_battle
           (snd (exec (form_alliance 20000 2 3 99) world_battle))
           alliances_unique_nil ltac:(vm_compute; reflexivity)).
Defined.

(** The alliance of [world_alliance] is broken. *)
Lemma break_alliance_keeps_records_unique_witness :
  let w' := snd (exec (break_alliance 2 3 99) world_alliance) in
  alliances_unique w'.(game).(Game.alliances) /\
  length w'.(game).(Game.alliances) = length world_alliance.(game).(Game.alliances) /\
  existsb (fun a => Alliance.is_active a && pair_matches a 2 3) w'.(game).(Game.alliances) = false.
Proof.
  exact (break_alliance_keeps_records_unique 2 3 99 world_alliance
           (snd (exec (break_alliance 2 3 99) world_alliance))
           (alliances_unique_single _) ltac:(vm_compute; reflexivity)).
Defined.

(** Agents 2 and 3 of [world_battle] ally at time 20000 and break up. *)
Lemma form_then_break_alliance_witness :
  let w1 := snd (exec (form_alliance 20000 2 3 99) world_battle) in
  exists w2, exec (break_alliance 2 3 99) w1 = (Ok tt, w2) /\
    option_map Agent.alliance_with (w2.(agents) !! 2) = Some None /\
    option_map Agent.alliance_with (w2.(agents) !! 3) = Some None /\
    w2.(stakes) = world_battle.(stakes) /\ w2.(tokens) = world_battle.(tokens) /\
    length w2.(game).(Game.alliances) = length w1.(game).(Game.alliances) /\
    (alliances_unique world_battle.(game).(Game.alliances) ->
     existsb (fun a => Alliance.is_active a && pair_matches a 2 3) w2.(game).(Game.alliances) = false).
Proof.
  exact (form_then_break_alliance 20000 2 3 99 world_battle
           (snd (exec (form_alliance 20000 2 3 99) world_battle))
           ltac:(vm_compute; reflexivity)).
Defined.


(** Agents 2 and 3 of [world_battle] start a battle at time 0. *)
Lemma start_battle_simple_locks_agents_witness :
  let w1 := snd (exec (start_battle_simple 0 2 3) world_battle) in
  fst (exec (start_battle_simple 5 2 1) w1) = Err (GameErr BattleAlreadyStarted) /\
  fst (exec (start_battle_simple 5 1 2) w1) = Err (GameErr BattleAlreadyStarted).
Proof.
  exact (proj1 (start_battle_simple_locks_agents 0 2 3 world_battle
                  (snd (exec (start_battle_simple 0 2 3) world_battle))
                  ltac:(vm_compute; reflexivity))
           5 2 1 agent_in_battle ltac:(left; reflexivity) ltac:(vm_compute; reflexivity)
           ltac:(reflexivity)).
Defined.

(** Staker 10 of [world_rewards] claims at time 1700000000. *)
Lemma claim_staking_rewards_effect_witness :
  exists si ag s d,
    world_rewards.(stakes) !! (1, 10) = Some si /\ world_rewards.(agents) !! 1 = Some ag /\
    world_rewards.(tokens) !! 500 = Some s /\ world_rewards.(tokens) !! 110 = Some d /\
    let r := user_reward (1700000000 - StakeInfo.last_reward_timestamp si + 1) (StakeInfo.shares si)
                         (Agent.total_shares ag) in
    r <= TokenAccount.amount s /\
    (snd (exec (claim_staking_rewards 1700000000 1 10 500 110 77) world_rewards)).(tokens) =
      <[110 := TokenAccount.set_amount (TokenAccount.amount d + r) d]>
        (<[500 := TokenAccount.set_amount (TokenAccount.amount s - r) s]> world_rewards.(tokens)) /\
    (snd (exec (claim_staking_rewards 1700000000 1 10 500 110 77) world_rewards)).(stakes) =
      <[(1, 10) := StakeInfo.set_last_reward_timestamp 1700000000 si]> world_rewards.(stakes) /\
    (snd (exec (claim_staking_rewards 1700000000 1 10 500 110 77) world_rewards)).(agents) =
      world_rewards.(agents) /\
    (snd (exec (claim_staking_rewards 1700000000 1 10 500 110 77) world_rewards)).(game) =
      world_rewards.(game).
Proof.
  exact (claim_staking_rewards_effect 1700000000 1 10 500 110 77 world_rewards
           (snd (exec (claim_staking_rewards 1700000000 1 10 500 110 77) world_rewards))
           ltac:(lia) ltac:(vm_compute; reflexivity)).
Defined.

(** Staker 10 deposits 1000 at time 0 and claims at time 1700000000. *)
Lemma first_claim_counts_from_time_zero_witness :
  let w1 := snd (exec (initialize_stake 0 1 10 110 200 1000) world_empty_rewards) in
  let w2 := snd (exec (claim_staking_rewards 1700000000 1 10 500 110 77) w1) in
  exists ag1, w1.(agents) !! 1 = Some ag1 /\
    amount_at 110 w2.(tokens) =
      amount_at 110 w1.(tokens) + user_reward (1700000000 + 1) (shares_at (1, 10) w1.(stakes))
                                    (Agent.total_shares ag1).
Proof.
  exact (first_claim_counts_from_time_zero 0 1700000000 1 10 110 200 1000 500 110 77
           world_empty_rewards
           (snd (exec (initialize_stake 0 1 10 110 200 1000) world_empty_rewards))
           (snd (exec (claim_staking_rewards 1700000000 1 10 500 110 77)
                   (snd (exec (initialize_stake 0 1 10 110 200 1000) world_empty_rewards))))
           ltac:(lia) ltac:(vm_compute; reflexivity) ltac:(vm_compute; reflexivity)).
Defined.

(** Staker 10 of [world_after_A] adds 500 at time 10. *)
Lemma stake_tokens_effect_witness :
  let w' := snd (exec (stake_tokens 10 1 10 110 200 500) world_after_A) in
  amount_at 110 w'.(tokens) = amount_at 110 world_after_A.(tokens) - 500 /\
  amount_at 200 w'.(tokens) = amount_at 200 world_after_A.(tokens) + 500 /\
  stake_of 10 w'.(game).(Game.total_stake_accounts) =
    Some (default 0 (stake_of 10 world_after_A.(game).(Game.total_stake_accounts)) + 500).
Proof.
  destruct (stake_tokens_effect 10 1 10 110 200 500 world_after_A
              (snd (exec (stake_tokens 10 1 10 110 200 500) world_after_A))
              ltac:(lia) ltac:(vm_compute; reflexivity))
    as (si & si' & ag & ag' & _ & _ & _ & _ & _ & _ & _ & _ & _ & Hsrc & Hvault & _ & Hgame).
  exact (conj Hsrc (conj Hvault Hgame)).
Defined.

(** Staker 10 initializes its stake in agent 1 twice. *)
Lemma initialize_stake_only_once_witness :
  fst (exec (initialize_stake 5 1 10 120 200 50) world_after_A) = Err AccountAlreadyInUse.
Proof.
  exact (initialize_stake_only_once 0 5 1 10 110 200 1000 120 200 50 world_empty world_after_A
           ltac:(vm_compute; reflexivity)).
Defined.

(** In [world_topped] staker 10's 1000 shares are worth 3000 tokens, more
    than its recorded 1000. *)
Lemma unstake_tokens_capped_by_deposit_witness :
  fst (exec (unstake_tokens 10 1 10 200 110 99 1000) world_topped) = Err (GameErr NotEnoughTokens).
Proof.
  exact (unstake_tokens_capped_by_deposit 10 1 10 200 110 99 1000 world_topped stake_A agent_A
           (TokenAccount.mk 99 3000)
           ltac:(vm_compute; reflexivity) ltac:(reflexivity) ltac:(reflexivity) ltac:(lit_arith)
           ltac:(vm_compute; reflexivity) ltac:(lit_arith) ltac:(lit_arith)
           ltac:(vm_compute; reflexivity) ltac:(lit_arith) ltac:(lit_arith) ltac:(lit_arith)).
Defined.

(** Staker 10 of [world_after_A] redeems 500 of its 1000 shares. *)
Lemma unstake_tokens_pays_at_most_deposit_witness :
  let w' := snd (exec (unstake_tokens 10 1 10 200 120 99 500) world_after_A) in
  amount_at 200 w'.(tokens) = 1000 - 500 * 1000 / 1000 /\
  amount_at 120 w'.(tokens) = amount_at 120 world_after_A.(tokens) + 500 * 1000 / 1000.
Proof.
  destruct (unstake_tokens_pays_at_most_deposit 10 1 10 200 120 99 500 world_after_A
              (snd (exec (unstake_tokens 10 1 10 200 120 99 500) world_after_A))
              stake_A agent_A (TokenAccount.mk 99 1000)
              ltac:(vm_compute; reflexivity) ltac:(vm_compute; reflexivity)
              ltac:(vm_compute; reflexivity) ltac:(lit_arith) ltac:(lia)
              ltac:(vm_compute; reflexivity))
    as (_ & _ & _ & Hv & Hd).
  exact (conj Hv Hd).
Defined.

(** Agent 5 is registered at (3, 4) in [world_empty]. *)
Lemma register_agent_effect_witness :
  let w' := snd (exec_ret (register_agent 5 99 3 4 String.EmptyString []) world_empty) in
  w'.(agents) = <[5 := Agent.mk 99 3 4 true 0 0 None None 0 0 0 None 0 0 0]> world_empty.(agents) /\
  NoDup (map AgentInfo.key [AgentInfo.mk 5 String.EmptyString]).
Proof.
  destruct (register_agent_effect 5 99 3 4 String.EmptyString [] [AgentInfo.mk 5 String.EmptyString]
              world_empty (snd (exec_ret (register_agent 5 99 3 4 String.EmptyString []) world_empty))
              ltac:(vm_compute; reflexivity))
    as (_ & _ & _ & Hag & _ & _ & _ & _ & Hnd).
  exact (conj Hag (Hnd (NoDup_nil_2))).
Defined.

(** Registering agent 5 while it exists fails with [AccountAlreadyInUse]. *)
Lemma register_agent_errors_witness :
  fst (exec_ret (register_agent 1 99 3 4 String.EmptyString []) world_empty) = Err AccountAlreadyInUse.
Proof.
  exact (proj1 (proj2 (register_agent_errors 1 99 3 4 String.EmptyString [] world_empty))
           ltac:(vm_compute; discriminate)).
Defined.

(** Agents 5 and 6 are registered in [world_empty] and then battle. *)
Lemma registered_agents_can_battle_witness :
  let w1 := snd (exec_ret (register_agent 5 99 3 4 String.EmptyString []) world_empty) in
  let reg1 := [AgentInfo.mk 5 String.EmptyString] in
  let w2 := snd (exec_ret (register_agent 6 99 1 1 String.EmptyString reg1) w1) in
  exists w3, exec (start_battle_simple 100 5 6) w2 = (Ok tt, w3) /\
    option_map Agent.battle_start_time (w3.(agents) !! 5) = Some (Some 100) /\
    option_map Agent.battle_start_time (w3.(agents) !! 6) = Some (Some 100).
Proof.
  exact (registered_agents_can_battle 5 6 99 3 4 1 1 String.EmptyString String.EmptyString []
           [AgentInfo.mk 5 String.EmptyString]
           [AgentInfo.mk 5 String.EmptyString; AgentInfo.mk 6 String.EmptyString]
           world_empty
           (snd (exec_ret (register_agent 5 99 3 4 String.EmptyString []) world_empty))
           (snd (exec_ret (register_agent 6 99 1 1 String.EmptyString [AgentInfo.mk 5 String.EmptyString])
                   (snd (exec_ret (register_agent 5 99 3 4 String.EmptyString []) world_empty))))
           100 ltac:(lia) ltac:(vm_compute; reflexivity) ltac:(vm_compute; reflexivity)).
Defined.

(** Killing agent 1 of [world_kill], alive or dead. *)
Lemma kill_agent_ignores_liveness_witness :
  let K := kill_agent 99 1 301 302 in
  let wb := set_agents (<[1 := Agent.set_is_alive false agent0]> world_kill.(agents)) world_kill in
  let wl := set_agents (<[1 := Agent.set_is_alive true agent0]> world_kill.(agents)) world_kill in
  fst (exec K wb) = fst (exec K wl) /\
  (fst (exec K wl) = Ok tt -> snd (exec K wb) = snd (exec K wl)).
Proof.
  exact (kill_agent_ignores_liveness 99 1 301 302 world_kill agent0 false ltac:(reflexivity)).
Defined.

